(** * msticpy.context.ip_utils: IP address classification, cached WHOIS
      resolution, table enrichment and entity construction.

    A shallow embedding of [msticpy/context/ip_utils.py].  Python values
    are a small inductive type, exceptions are an error type, and the
    effects of the module (the [lru_cache] table of [get_whois_info], the
    calls made to the WHOIS and geolocation clients, what is printed and
    the DataFrame objects that exist) are threaded through one state
    record by a state-and-exception monad. *)

From Stdlib Require Import String Ascii List NArith Arith Lia Bool DecimalString.
From stdpp Require Import base decidable option list strings.
Import ListNotations.
Local Open Scope string_scope.
Local Open Scope list_scope.

(** ** Python values *)

(** A [dict] with string keys and string values, in insertion order. *)
Definition dict := list (string * string).

(** The hashable scalars that reach the functions of the module as
    arguments: [None], a [bool], a [str] and the float [nan] that pandas
    uses for a missing cell. *)
Inductive pyval :=
| VNone
| VBool (b : bool)
| VStr (s : string)
| VNaN.

(** A cell of a DataFrame: a scalar, a [list] of strings or a [dict]. *)
Inductive cell :=
| CVal (v : pyval)
| CList (l : list string)
| CDict (d : dict).

#[global] Instance pyval_eq_dec : EqDecision pyval.
Proof. solve_decision. Defined.

#[global] Instance cell_eq_dec : EqDecision cell.
Proof. solve_decision. Defined.

(** Python truthiness, as [if x:], [not x] and [x or y] use it. *)
Definition truthy (v : pyval) : bool :=
  match v with
  | VNone => false
  | VBool b => b
  | VStr s => negb (String.eqb s EmptyString)
  | VNaN => true
  end.

(** [x or y] *)
Definition py_or (x y : pyval) : pyval := if truthy x then x else y.

(** [str(x)], as an f-string formats a value. *)
Definition pystr (v : pyval) : string :=
  match v with
  | VNone => "None"
  | VBool true => "True"
  | VBool false => "False"
  | VStr s => s
  | VNaN => "nan"
  end.

Definition newline : string := String (ascii_of_nat 10) EmptyString.

(** ** Exceptions and results *)

Inductive exc :=
| ValueError (msg : string)
| TypeError (msg : string)
| KeyError (key : string).

Inductive result (A : Type) :=
| Ok (a : A)
| Raise (e : exc).
Arguments Ok {A} a.
Arguments Raise {A} e.

(** [d[k]] on a dict: the value of the first entry with key [k], or
    [KeyError]. *)
Fixpoint getitem (d : dict) (k : string) : result string :=
  match d with
  | [] => Raise (KeyError k)
  | (k', v) :: d' => if String.eqb k' k then Ok v else getitem d' k
  end.

(** ** The external collaborators *)

(** What [get_ip_type] reads from the object that
    [ipaddress.ip_address] returns. *)
Record ip_obj := {
  is_multicast : bool;
  is_global : bool;
  is_loopback : bool;
  is_link_local : bool;
  is_unspecified : bool;
  is_private : bool;
  is_reserved : bool
}.

(** The exception classes that the module imports from [ipwhois]
    (lines 21-29) and catches in [get_whois_info]. *)
Inductive ipwhois_error :=
| ASNRegistryError
| HostLookupError
| HTTPLookupError
| HTTPRateLimitError
| WhoisLookupError
| WhoisRateLimitError.

Definition error_name (e : ipwhois_error) : string :=
  match e with
  | ASNRegistryError => "ASNRegistryError"
  | HostLookupError => "HostLookupError"
  | HTTPLookupError => "HTTPLookupError"
  | HTTPRateLimitError => "HTTPRateLimitError"
  | WhoisLookupError => "WhoisLookupError"
  | WhoisRateLimitError => "WhoisRateLimitError"
  end.

(** [str(type(err))] *)
Definition type_repr (e : ipwhois_error) : string :=
  "<class 'ipwhois.exceptions." +:+ error_name e +:+ "'>".

(** Modelled from the spec: the record of the external WHOIS client
    ([ipwhois.IPWhois], not part of this repository), "a field-mapping
    record (including an ASN/owner description field)". *)
Record WhoisRecord := {
  asn_description : string;
  other_fields : dict
}.

(** The record as the [dict] that [lookup_whois] returns. *)
Definition record_dict (r : WhoisRecord) : dict :=
  ("asn_description", asn_description r) :: other_fields r.

(** Modelled from the spec: the outcome of one lookup of the external
    WHOIS client, which returns a record "or raising one of a fixed small
    set of distinguishable failure kinds". *)
Inductive whois_outcome :=
| Found (r : WhoisRecord)
| Failed (e : ipwhois_error).

(** ** State and the monad *)

(** A call of [get_whois_info] as the [lru_cache] wrapper receives it:
    positional arguments and keyword arguments.  The cache key is made
    of both, in the order given. *)
Record call := {
  args : list pyval;
  kwds : list (string * pyval)
}.

(** Equality of values, of sequences and of calls, as the table of
    [lru_cache] compares keys ([nan] is one object, equal to itself as a
    key). *)
Definition pyval_eqb (x y : pyval) : bool :=
  match x, y with
  | VNone, VNone => true
  | VBool a, VBool b => Bool.eqb a b
  | VStr a, VStr b => String.eqb a b
  | VNaN, VNaN => true
  | _, _ => false
  end.

Fixpoint list_eqb {A} (eqb : A -> A -> bool) (l1 l2 : list A) : bool :=
  match l1, l2 with
  | [], [] => true
  | x :: l1', y :: l2' => eqb x y && list_eqb eqb l1' l2'
  | _, _ => false
  end.

Definition kw_eqb (p q : string * pyval) : bool :=
  String.eqb (fst p) (fst q) && pyval_eqb (snd p) (snd q).

Definition call_eqb (x y : call) : bool :=
  list_eqb pyval_eqb (args x) (args y) && list_eqb kw_eqb (kwds x) (kwds y).

Lemma pyval_eqb_eq x y : pyval_eqb x y = true <-> x = y.
Proof.
  destruct x, y; cbn; try (split; [discriminate|congruence]); try tauto.
  - rewrite Bool.eqb_true_iff. split; congruence.
  - rewrite String.eqb_eq. split; congruence.
Qed.

Lemma list_eqb_eq {A} (eqb : A -> A -> bool) (l1 l2 : list A) :
  (forall x y, eqb x y = true <-> x = y) ->
  list_eqb eqb l1 l2 = true <-> l1 = l2.
Proof.
  intros H. revert l2. induction l1 as [|x l1 IH]; intros [|y l2]; cbn;
    try (split; [discriminate|congruence]); try tauto.
  rewrite andb_true_iff, H, IH. split; [intros [-> ->]; reflexivity|].
  intros [= -> ->]. auto.
Qed.

Lemma call_eqb_eq x y : call_eqb x y = true <-> x = y.
Proof.
  destruct x as [a1 k1], y as [a2 k2]. unfold call_eqb. cbn.
  rewrite andb_true_iff, (list_eqb_eq pyval_eqb) by apply pyval_eqb_eq.
  rewrite (list_eqb_eq kw_eqb).
  - split; [intros [-> ->]; reflexivity|]. intros [= -> ->]. auto.
  - intros [s1 v1] [s2 v2]. unfold kw_eqb. cbn.
    rewrite andb_true_iff, String.eqb_eq, pyval_eqb_eq.
    split; [intros [-> ->]; reflexivity|]. intros [= -> ->]. auto.
Qed.

#[global] Instance call_eq_dec : EqDecision call.
Proof.
  intros x y. destruct (call_eqb x y) eqn:H; [left|right].
  - now apply call_eqb_eq.
  - intros E. apply call_eqb_eq in E. congruence.
Defined.

Record DataFrame := {
  columns : list string;
  rows : list (list cell)
}.

(** An [IpAddress] entity: its address and the location that the
    geolocation lookup sets. *)
Record IpAddress := {
  Address : pyval;
  Location : option string
}.

Record world := {
  cache : list (call * (string * dict));  (* most recently used first *)
  lookups : list pyval;                   (* WHOIS lookups made, oldest first *)
  stdout : list string;                   (* texts printed, oldest first *)
  frames : list DataFrame;                (* the DataFrame objects, by reference *)
  geo_lookups : list pyval                (* geolocation lookups made, oldest first *)
}.

Definition empty_world : world :=
  {| cache := []; lookups := []; stdout := []; frames := []; geo_lookups := [] |}.

Definition set_cache (c : list (call * (string * dict))) (w : world) : world :=
  {| cache := c; lookups := lookups w; stdout := stdout w;
     frames := frames w; geo_lookups := geo_lookups w |}.

Definition set_frames (f : list DataFrame) (w : world) : world :=
  {| cache := cache w; lookups := lookups w; stdout := stdout w;
     frames := f; geo_lookups := geo_lookups w |}.

Definition add_output (text : string) (w : world) : world :=
  {| cache := cache w; lookups := lookups w; stdout := stdout w ++ [text];
     frames := frames w; geo_lookups := geo_lookups w |}.

Definition add_lookup (ip : pyval) (w : world) : world :=
  {| cache := cache w; lookups := lookups w ++ [ip]; stdout := stdout w;
     frames := frames w; geo_lookups := geo_lookups w |}.

Definition add_geo_lookup (ip : pyval) (w : world) : world :=
  {| cache := cache w; lookups := lookups w; stdout := stdout w;
     frames := frames w; geo_lookups := geo_lookups w ++ [ip] |}.

Definition M (A : Type) : Type := world -> result A * world.

Definition ret {A} (a : A) : M A := fun w => (Ok a, w).

Definition raise {A} (e : exc) : M A := fun w => (Raise e, w).

Definition bind {A B} (m : M A) (f : A -> M B) : M B :=
  fun w =>
    match m w with
    | (Ok a, w') => f a w'
    | (Raise e, w') => (Raise e, w')
    end.

Notation "'let*' x ':=' m 'in' k" := (bind m (fun x => k))
  (at level 10, x pattern, m at level 100, k at level 200).

Definition lift {A} (r : result A) : M A := fun w => (r, w).

(** [print(text, end=...)] with an empty [end]: the text and no newline. *)
Definition print_raw (text : string) : M unit :=
  fun w => (Ok tt, add_output text w).

(** [print(text)] *)
Definition print (text : string) : M unit := print_raw (text +:+ newline).

(** ** Strings, sets and DataFrames *)

(** [sep in s] for a one-character [sep] *)
Fixpoint contains_char (sep : ascii) (s : string) : bool :=
  match s with
  | EmptyString => false
  | String c s' => Ascii.eqb c sep || contains_char sep s'
  end.

(** [s.split(sep)] for a one-character [sep] *)
Fixpoint split_on (sep : ascii) (s : string) : list string :=
  match s with
  | EmptyString => [EmptyString]
  | String c s' =>
      if Ascii.eqb c sep then EmptyString :: split_on sep s'
      else match split_on sep s' with
           | [] => [String c EmptyString]
           | p :: ps => String c p :: ps
           end
  end.

(** The characters that [str.strip] removes, those for which
    [str.isspace] holds.  A character of a string is its code point,
    and the strings of the model are those with code points below 256:
    there the whitespace is tab, newline, vertical tab, form feed,
    carriage return, the four separators 28-31, space, next line (133)
    and the no-break space (160). *)
Definition is_space (c : ascii) : bool :=
  let n := nat_of_ascii c in
  (Nat.leb 9 n && Nat.leb n 13) || (Nat.leb 28 n && Nat.leb n 32) ||
  Nat.eqb n 133 || Nat.eqb n 160.

Fixpoint lstrip (s : string) : string :=
  match s with
  | EmptyString => EmptyString
  | String c s' => if is_space c then lstrip s' else s
  end.

Fixpoint rstrip (s : string) : string :=
  match s with
  | EmptyString => EmptyString
  | String c s' =>
      match rstrip s' with
      | EmptyString => if is_space c then EmptyString else String c EmptyString
      | r => String c r
      end
  end.

(** [s.strip()] *)
Definition strip (s : string) : string := rstrip (lstrip s).

(** A [set] is the list of its elements without repetition; [set(l)]
    keeps one occurrence of each element, the last.  (The order in
    which Python iterates over a set is not specified; the model fixes
    this one.) *)
Definition py_set (l : list pyval) : list pyval := remove_dups l.

Fixpoint col_index (col : string) (cols : list string) : option nat :=
  match cols with
  | [] => None
  | c :: cols' =>
      if String.eqb c col then Some 0 else option_map S (col_index col cols')
  end.

(** [x[col]] for a row [x] of a frame with column labels [cols] *)
Definition row_get (cols : list string) (x : list cell) (col : string) : result cell :=
  match col_index col cols with
  | Some i => Ok (nth i x (CVal VNaN))
  | None => Raise (KeyError col)
  end.

(** [data[col].values] *)
Definition column_values (data : DataFrame) (col : string) : result (list cell) :=
  match col_index col (columns data) with
  | Some i => Ok (map (fun x => nth i x (CVal VNaN)) (rows data))
  | None => Raise (KeyError col)
  end.

(** [data[col] = values]: an existing column is overwritten, a new one
    is added at the end. *)
Definition set_column (col : string) (values : list cell) (data : DataFrame) : DataFrame :=
  match col_index col (columns data) with
  | Some i =>
      {| columns := columns data;
         rows := zip_with (fun x v => <[i := v]> x) (rows data) values |}
  | None =>
      {| columns := columns data ++ [col];
         rows := zip_with (fun x v => x ++ [v]) (rows data) values |}
  end.

Fixpoint dict_find (d : dict) (k : string) : option string :=
  match d with
  | [] => None
  | (k', v) :: d' => if String.eqb k' k then Some v else dict_find d' k
  end.

(** The cell under column [k] for a row whose dict is [d]: the value of
    the key, or [nan] when the dict lacks it. *)
Definition field_cell (d : dict) (k : string) : cell :=
  match dict_find d k with
  | Some v => CVal (VStr v)
  | None => CVal VNaN
  end.

(** The keys of a list of dicts, each once, in the order in which they
    first occur. *)
Definition first_keys (ds : list dict) : list string :=
  reverse (remove_dups (reverse (concat (map (map fst) ds)))).

(** The frame that [apply(..., result_type="expand")] builds from one
    dict per row, for a table that has rows: a column for each key that
    occurs, in the order of first occurrence, and [nan] where a row's
    dict lacks the key. *)
Definition expand_dicts (ds : list dict) : DataFrame :=
  let cols := first_keys ds in
  {| columns := cols;
     rows := map (fun d => map (field_cell d) cols) ds |}.

(** [data.apply(f, axis=1)] for a table that has rows: [f] on each row,
    first to last. *)
Fixpoint apply_rows {A} (f : list cell -> M A) (xs : list (list cell)) : M (list A) :=
  match xs with
  | [] => ret []
  | x :: xs' =>
      let* a := f x in
      let* rest := apply_rows f xs' in
      ret (a :: rest)
  end.

(** DataFrame objects live in [frames]; a reference is an index. *)
Definition empty_frame : DataFrame := {| columns := []; rows := [] |}.

Definition load (r : nat) : M DataFrame :=
  fun w => (Ok (nth r (frames w) empty_frame), w).

Definition alloc (df : DataFrame) : M nat :=
  fun w => (Ok (length (frames w)), set_frames (frames w ++ [df]) w).

Definition store (r : nat) (df : DataFrame) : M unit :=
  fun w => (Ok tt, set_frames (<[r := df]> (frames w)) w).

(** A row whose cell in column [j], the address, is a scalar that is
    absent or empty. *)
Definition empty_address (j : nat) (x : list cell) : Prop :=
  exists v, nth j x (CVal VNaN) = CVal v /\ truthy v = false.

(** The addresses of a list of entities. *)
Definition addresses (es : list IpAddress) : list pyval := map Address es.

(** The call that [get_whois_df] makes for a row whose address is the
    scalar [v]: [get_whois_info(v, show_progress=show_progress)]. *)
Definition row_call (show_progress : bool) (v : pyval) : call :=
  {| args := [v]; kwds := [("show_progress", VBool show_progress)] |}.

(** The calls of [get_whois_info] that the rows [xs] give rise to, in
    the order of the rows, the address being in column [j]; a row whose
    cell is a list or a dict is refused before any call is made. *)
Fixpoint row_calls (j : nat) (show_progress : bool) (xs : list (list cell)) : list call :=
  match xs with
  | [] => []
  | x :: xs' =>
      match nth j x (CVal VNaN) with
      | CVal v => row_call show_progress v :: row_calls j show_progress xs'
      | _ => row_calls j show_progress xs'
      end
  end.

(** What one item of the input of [convert_to_ip_entities] stands for,
    said in words and not by the code of lines 90-95, to compare the
    code with: a list stands for its elements; a string with a comma for
    the pieces between its commas, each without the whitespace around
    it; any other value for itself. *)
Definition item_gives (addr : cell) (v : pyval) : Prop :=
  match addr with
  | CList l => exists s, elem_of s l /\ v = VStr s
  | CVal (VStr s) =>
      if contains_char "," s
      then exists piece, elem_of piece (split_on "," s) /\ v = VStr (strip piece)
      else v = VStr s
  | CVal u => v = u
  | CDict _ => False
  end.

(** The exceptions for missing input (lines 128 and 187, line 87). *)
Definition missing_address : exc :=
  ValueError "'ip' or 'ip_str' value must be specified".

Definition missing_source : exc :=
  ValueError "Must specify either ip_str or data + ip_col parameters.".

(** The text that [get_ip_type] prints for a value that is not an
    address (line 132). *)
Definition diagnostic (v : pyval) : string :=
  (pystr v +:+ " does not appear to be an IPv4 or IPv6 address") +:+ newline.

(** The number of progress markers in what was printed. *)
Definition markers (out : list string) : nat :=
  length (filter (fun t => t = ".") out).

(** Key [k] is in the table [l] with value [v], and the keys in front
    of it, the ones used more recently, are distinct and among [used]. *)
Definition kept (k : call) (v : string * dict) (used : list call)
    (l : list (call * (string * dict))) : Prop :=
  exists front back,
    l = front ++ (k, v) :: back /\
    ~ elem_of k (fmap fst front) /\
    NoDup (fmap fst front) /\
    (forall k', elem_of k' (fmap fst front) -> elem_of k' used).

(** ** The decision table of the specification

    The scope predicates in the priority order of the specification,
    each with the category it reports; [classify_spec] returns the
    category of the first predicate that holds and [Unspecified] when
    none does. *)
Definition scope_priority : list ((ip_obj -> bool) * string) :=
  [ (is_multicast, "Multicast"); (is_global, "Public"); (is_loopback, "Loopback");
    (is_link_local, "Link Local"); (is_unspecified, "Unspecified");
    (is_private, "Private"); (is_reserved, "Reserved") ].

Definition classify_spec (a : ip_obj) : string :=
  match find (fun p => fst p a) scope_priority with
  | Some p => snd p
  | None => "Unspecified"
  end.

Section IpUtils.

(** [ipaddress.ip_address]: [None] stands for its [ValueError]. *)
Variable ip_address : pyval -> option ip_obj.

(** [IPWhois(ip).lookup_whois()]: the outcome of the [n]-th lookup that
    the process makes (counting from 0), for address [ip]. *)
Variable lookup_whois : nat -> pyval -> whois_outcome.

(** ** get_ip_type *)

Definition get_ip_type (ip ip_str : pyval) : M string :=
  let ip_str := py_or ip ip_str in
  if negb (truthy ip_str) then
    raise (ValueError "'ip' or 'ip_str' value must be specified")
  else
    match ip_address ip_str with
    | None =>
        let* _ := print (pystr ip_str +:+ " does not appear to be an IPv4 or IPv6 address") in
        ret "Unspecified"
    | Some a =>
        if is_multicast a then ret "Multicast"
        else if is_global a then ret "Public"
        else if is_loopback a then ret "Loopback"
        else if is_link_local a then ret "Link Local"
        else if is_unspecified a then ret "Unspecified"
        else if is_private a then ret "Private"
        else if is_reserved a then ret "Reserved"
        else ret "Unspecified"
    end.

(** ** get_whois_info *)

(** [kwargs.get(k)] *)
Fixpoint kw_get (kw : list (string * pyval)) (k : string) : option pyval :=
  match kw with
  | [] => None
  | (k', v) :: kw' => if String.eqb k' k then Some v else kw_get kw' k
  end.

Fixpoint kw_remove (kw : list (string * pyval)) (k : string) : list (string * pyval) :=
  match kw with
  | [] => []
  | (k', v) :: kw' =>
      if String.eqb k' k then kw_remove kw' k else (k', v) :: kw_remove kw' k
  end.

(** Python's binding of a call to the signature
    [get_whois_info(ip=None, show_progress=False, **kwargs)]: the values
    of [ip], of [show_progress] and of [kwargs]. *)
Definition bind_args (c : call) : result (pyval * pyval * list (string * pyval)) :=
  match args c with
  | [] =>
      Ok (default VNone (kw_get (kwds c) "ip"),
          default (VBool false) (kw_get (kwds c) "show_progress"),
          kw_remove (kw_remove (kwds c) "ip") "show_progress")
  | [a] =>
      match kw_get (kwds c) "ip" with
      | Some _ => Raise (TypeError "get_whois_info() got multiple values for argument 'ip'")
      | None =>
          Ok (a, default (VBool false) (kw_get (kwds c) "show_progress"),
              kw_remove (kwds c) "show_progress")
      end
  | [a; b] =>
      match kw_get (kwds c) "ip", kw_get (kwds c) "show_progress" with
      | Some _, _ => Raise (TypeError "get_whois_info() got multiple values for argument 'ip'")
      | None, Some _ =>
          Raise (TypeError "get_whois_info() got multiple values for argument 'show_progress'")
      | None, None => Ok (a, b, kwds c)
      end
  | _ => Raise (TypeError "get_whois_info() takes from 0 to 2 positional arguments")
  end.

(** [IPWhois(ip_str).lookup_whois()]: one call of the external client,
    recorded in [lookups]. *)
Definition whois_lookup (ip_str : pyval) : M whois_outcome :=
  fun w =>
    (Ok (lookup_whois (length (lookups w)) ip_str), add_lookup ip_str w).

(** The function that [lru_cache] decorates (lines 158-205). *)
Definition get_whois_info_body (c : call) : M (string * dict) :=
  let* (ip, show_progress, kwargs) := lift (bind_args c) in
  let ip_str := py_or ip (default VNone (kw_get kwargs "ip_str")) in
  if negb (truthy ip_str) then
    raise (ValueError "'ip' or 'ip_str' value must be specified")
  else
    let* ip_type := get_ip_type ip_str VNone in
    if String.eqb ip_type "Public" then
      let* outcome := whois_lookup ip_str in
      match outcome with
      | Found whois_result =>
          let* _ := (if truthy show_progress then print_raw "." else ret tt) in
          let* summary := lift (getitem (record_dict whois_result) "asn_description") in
          ret (summary, record_dict whois_result)
      | Failed err =>
          ret ("Error during lookup of " +:+ pystr ip_str +:+ " " +:+ type_repr err, [])
      end
    else
      ret ("No ASN Information for IP type: " +:+ ip_type, []).

(** *** functools.lru_cache *)

Fixpoint cache_get (k : call) (c : list (call * (string * dict))) : option (string * dict) :=
  match c with
  | [] => None
  | (k', v) :: c' => if decide (k' = k) then Some v else cache_get k c'
  end.

Fixpoint cache_remove (k : call) (c : list (call * (string * dict)))
  : list (call * (string * dict)) :=
  match c with
  | [] => []
  | (k', v) :: c' => if decide (k' = k) then c' else (k', v) :: cache_remove k c'
  end.

(** A new entry goes to the front; when the table is full the entry at
    the back, the least recently used, is dropped first. *)
Definition cache_put (maxsize : nat) (k : call) (v : string * dict)
    (c : list (call * (string * dict))) : list (call * (string * dict)) :=
  (k, v) :: (if decide (maxsize <= length c) then removelast c else c).

(** The wrapper that [lru_cache(maxsize)] builds, for [0 < maxsize]: a
    hit returns the stored result and makes the entry the most recent; a
    miss calls the function and stores what it returns; an exception of
    the function passes through and nothing is stored. *)
Definition lru_cache (maxsize : nat) (user_function : call -> M (string * dict))
    (c : call) : M (string * dict) :=
  fun w =>
    match cache_get c (cache w) with
    | Some v => (Ok v, set_cache ((c, v) :: cache_remove c (cache w)) w)
    | None =>
        match user_function c w with
        | (Ok v, w') =>
            match cache_get c (cache w') with
            | Some _ => (Ok v, w')
            | None => (Ok v, set_cache (cache_put maxsize c v (cache w')) w')
            end
        | (Raise e, w') => (Raise e, w')
        end
    end.

(** [@lru_cache(maxsize=1024)] *)
Definition maxsize : nat := 1024.

Definition get_whois_info : call -> M (string * dict) :=
  lru_cache maxsize get_whois_info_body.

(** The address that a call asks about: the value of [ip_str] after
    line 185, when the arguments bind and it is truthy. *)
Definition address_of (c : call) : option pyval :=
  match bind_args c with
  | Ok (ip, _, kwargs) =>
      let ip_str := py_or ip (default VNone (kw_get kwargs "ip_str")) in
      if truthy ip_str then Some ip_str else None
  | Raise _ => None
  end.

(** Whether a call asks for progress markers. *)
Definition shows_progress (c : call) : bool :=
  match bind_args c with
  | Ok (_, show_progress, _) => truthy show_progress
  | Raise _ => false
  end.

(** The category of a value: what [get_ip_type] returns for it. *)
Definition ip_type_of (v : pyval) : result string :=
  fst (get_ip_type v VNone empty_world).

(** The category that line 188 computes for a truthy value. *)
Definition category (v : pyval) : string :=
  match ip_address v with
  | Some a => classify_spec a
  | None => "Unspecified"
  end.

(** A sequence of calls, one after the other, whatever they return. *)
Fixpoint run (cs : list call) (w : world) : world :=
  match cs with
  | [] => w
  | c :: cs' => run cs' (snd (get_whois_info c w))
  end.

(** In the sequence of calls [cs], made from the world [w], there is a
    call with key [k] that returned [v]. *)
Definition returned_in (cs : list call) (w : world) (k : call) (v : string * dict) : Prop :=
  exists before after,
    cs = before ++ k :: after /\
    fst (get_whois_info k (run before w)) = Ok v.

(** Every entry of the table is a result that the decorated function
    can return for that key. *)
Definition cache_sound (w : world) : Prop :=
  forall k v, cache_get k (cache w) = Some v ->
    exists w0, fst (get_whois_info_body k w0) = Ok v.

(** A call completes a lookup: it misses the table, names a [Public]
    address, and the client returns a record. *)
Definition completes_lookup (c : call) (w : world) : Prop :=
  cache_get c (cache w) = None /\
  exists v r, address_of c = Some v /\ ip_type_of v = Ok "Public" /\
              lookup_whois (length (lookups w)) v = Found r.

(** ** get_whois_df *)

(** [get_whois_info(x[ip_column], show_progress=show_progress)] for a
    row [x]; a list or a dict is not hashable and the cache refuses
    it. *)
Definition whois_of_row (cols : list string) (ip_column : string)
    (show_progress : bool) (x : list cell) : M (string * dict) :=
  let* addr := lift (row_get cols x ip_column) in
  match addr with
  | CVal v =>
      get_whois_info {| args := [v]; kwds := [("show_progress", VBool show_progress)] |}
  | CList _ => raise (TypeError "unhashable type: 'list'")
  | CDict _ => raise (TypeError "unhashable type: 'dict'")
  end.

(** [data] is a reference to the caller's DataFrame; the result is a
    reference to the DataFrame returned.  [apply] is followed as it
    works on a table that has rows. *)
Definition get_whois_df (data : nat) (ip_column : string) (all_columns : bool)
    (asn_col : string) (whois_col : option string) (show_progress : bool) : M nat :=
  if all_columns then
    let* df := load data in
    let* res := apply_rows
                  (fun x => let* r := whois_of_row (columns df) ip_column show_progress x in
                            ret (snd r))
                  (rows df) in
    alloc (expand_dicts res)
  else
    let* df := load data in
    let* data := alloc df in                               (* data = data.copy() *)
    match whois_col with
    | Some whois_col =>
        let* df := load data in
        let* res := apply_rows (whois_of_row (columns df) ip_column show_progress)
                      (rows df) in
        let* df := load data in
        let* _ := store data (set_column asn_col (map (fun r => CVal (VStr (fst r))) res) df) in
        let* df := load data in
        let* _ := store data (set_column whois_col (map (fun r => CDict (snd r)) res) df) in
        ret data
    | None =>
        let* df := load data in
        let* res := apply_rows
                      (fun x => let* r := whois_of_row (columns df) ip_column show_progress x in
                                ret (fst r))
                      (rows df) in
        let* df := load data in
        let* _ := store data (set_column asn_col (map (fun s => CVal (VStr s)) res) df) in
        ret data
    end.

(** ** IpWhoisAccessor *)

(** A warning given to [warnings.warn]: its category and its message. *)
Record warning := {
  warn_category : string;
  warn_message : string
}.

(** The warning of lines 304-309. *)
Definition deprecation : warning :=
  {| warn_category := "DeprecationWarning";
     warn_message :=
       "This accessor method has been deprecated." +:+ newline +:+
       "Please use IpAddress.util.whois() pivot function." +:+
       "This will be removed in MSTICPy v2.2.0" |}.

(** The keyword arguments of [lookup], which it passes on to
    [get_whois_df]: the four that [get_whois_df] has besides [data] and
    [ip_column], each given or not, and the names of any others. *)
Record lookup_kwargs := {
  kw_all_columns : option bool;
  kw_asn_col : option string;
  kw_whois_col : option (option string);
  kw_show_progress : option bool;
  kw_other : list string
}.

(** A keyword of a call of [lookup] named as one of its own parameters,
    [self] and [ip_column], which the call gives already: Python refuses
    the call when it binds the arguments, before the body runs. *)
Definition own_parameter (name : string) : bool :=
  String.eqb name "self" || String.eqb name "ip_column".

(** The [TypeError] of such a call, in the words of CPython 3.8. *)
Definition binding_error (name : string) : exc :=
  TypeError ("lookup() got multiple values for argument '" +:+ name +:+ "'").

(** The [TypeError] of the call of [get_whois_df] in line 310 when
    [kwargs] holds the names [names] besides the four keywords that
    [get_whois_df] takes: [data], which [lookup] passes already, or else
    the first name, which [get_whois_df] does not have. *)
Definition keyword_error (names : list string) : exc :=
  if existsb (String.eqb "data") names
  then TypeError "get_whois_df() got multiple values for keyword argument 'data'"
  else TypeError ("get_whois_df() got an unexpected keyword argument '"
                  +:+ hd EmptyString names +:+ "'").

(** [IpWhoisAccessor.lookup] (lines 278-310), for the accessor of the
    DataFrame at reference [_df]: the warnings it issues, and the
    result of [get_whois_df(data=self._df, ip_column=ip_column,
    **kwargs)]. *)
Definition IpWhoisAccessor_lookup (_df : nat) (ip_column : string)
    (kwargs : lookup_kwargs) (w : world) : list warning * (result nat * world) :=
  match find own_parameter (kw_other kwargs) with
  | Some name => ([], (Raise (binding_error name), w))
  | None =>
      ([deprecation],
       match kw_other kwargs with
       | [] =>
           get_whois_df _df ip_column
             (default false (kw_all_columns kwargs))
             (default "AsnDescription" (kw_asn_col kwargs))
             (default None (kw_whois_col kwargs))
             (default false (kw_show_progress kwargs)) w
       | names => (Raise (keyword_error names), w)
       end)
  end.

(** ** convert_to_ip_entities *)

(** [arg_to_list] of [msticpy.common.utility], which splits a delimited
    string into its items. *)
Variable arg_to_list : string -> list string.

(** The location that [GeoLiteLookup.lookup_ip] finds for an address. *)
Variable geo_location : pyval -> option string.

(** Modelled from the spec: [geo_lite_lookup.lookup_ip(ip_entity=ip_ent)]
    of [msticpy.context.geoip], the geolocation collaborator, which
    "exposes lookup(entity) -> entity (mutates or returns an entity
    augmented with location fields)".  One call, recorded in
    [geo_lookups]; it sets the location of the entity.  What else the
    client does (what it prints, what it keeps) is not modelled. *)
Definition lookup_ip (ip_ent : IpAddress) : M IpAddress :=
  fun w =>
    (Ok {| Address := Address ip_ent; Location := geo_location (Address ip_ent) |},
     add_geo_lookup (Address ip_ent) w).

(** The entity as [lookup_ip] leaves it. *)
Definition with_location (ip_ent : IpAddress) : IpAddress :=
  {| Address := Address ip_ent; Location := geo_location (Address ip_ent) |}.

(** [for ip_ent in ip_entities: geo_lite_lookup.lookup_ip(ip_entity=ip_ent)] *)
Fixpoint lookup_all (ip_entities : list IpAddress) : M (list IpAddress) :=
  match ip_entities with
  | [] => ret []
  | e :: es =>
      let* e' := lookup_ip e in
      let* es' := lookup_all es in
      ret (e' :: es')
  end.

(** The set [ip_list] that one element of [addrs] gives (lines 90-95). *)
Definition batch_set (addr : cell) : result (list pyval) :=
  match addr with
  | CList l => Ok (py_set (map VStr l))
  | CVal (VStr s) =>
      if contains_char "," s
      then Ok (py_set (map (fun ip => VStr (strip ip)) (split_on "," s)))
      else Ok [VStr s]
  | CVal v => Ok [v]
  | CDict _ => Raise (TypeError "unhashable type: 'dict'")
  end.

(** The loop of lines 89-101, from the values of [ip_entities] and
    [all_ips] before it. *)
Fixpoint entities_loop (geo_lookup : bool) (addrs : list cell)
    (ip_entities : list IpAddress) (all_ips : list pyval) : M (list IpAddress) :=
  match addrs with
  | [] => ret ip_entities
  | addr :: addrs' =>
      let* ip_list := lift (batch_set addr) in
      let ip_list := list_difference ip_list all_ips in
      let ip_entities :=
        ip_entities ++ map (fun ip => {| Address := ip; Location := None |}) ip_list in
      let all_ips := all_ips ++ ip_list in
      let* ip_entities :=
        (if geo_lookup then lookup_all ip_entities else ret ip_entities) in
      entities_loop geo_lookup addrs' ip_entities all_ips
  end.

(** An optional string argument when it is truthy: given and not
    empty. *)
Definition given (s : option string) : option string :=
  match s with
  | Some s => if truthy (VStr s) then Some s else None
  | None => None
  end.

Definition convert_to_ip_entities (ip_str : option string) (data : option DataFrame)
    (ip_col : option string) (geo_lookup : bool) : M (list IpAddress) :=
  let* addrs :=
    match given ip_str with
    | Some s => ret (map (fun a => CVal (VStr a)) (arg_to_list s))
    | None =>
        match data, given ip_col with
        | Some d, Some col => lift (column_values d col)
        | _, _ =>
            raise (ValueError "Must specify either ip_str or data + ip_col parameters.")
        end
    end in
  entities_loop geo_lookup addrs [] [].

End IpUtils.

(** ** A concrete address parser and concrete clients

    The IPv4 part of Python's [ipaddress] module, after CPython 3.8
    ([IPv4Address] and [_IPv4Constants]), to run the functions above on
    dotted-quad strings.  IPv6 text is outside this instance. *)
Module IPv4.

Definition digit (c : ascii) : option N :=
  let n := N_of_ascii c in
  if (N.leb 48 n && N.leb n 57)%bool then Some (n - 48)%N else None.

Fixpoint digits (s : string) (acc : N) : option N :=
  match s with
  | EmptyString => Some acc
  | String c s' =>
      match digit c with
      | Some d => digits s' (acc * 10 + d)%N
      | None => None
      end
  end.

(** [_parse_octet]: one to three decimal digits, at most 255. *)
Definition parse_octet (s : string) : option N :=
  match s with
  | EmptyString => None
  | _ =>
      if Nat.ltb 3 (String.length s) then None
      else match digits s 0 with
           | Some n => if N.leb n 255 then Some n else None
           | None => None
           end
  end.

Definition quad (a b c d : N) : N := (((a * 256 + b) * 256 + c) * 256 + d)%N.

(** [_ip_int_from_string] *)
Definition parse (s : string) : option N :=
  match map parse_octet (split_on "." s) with
  | [Some a; Some b; Some c; Some d] => Some (quad a b c d)
  | _ => None
  end.

(** [ip in IPv4Network(base/prefix)] *)
Definition in_network (ip base : N) (prefix : N) : bool :=
  N.eqb (N.shiftr ip (32 - prefix)) (N.shiftr base (32 - prefix)).

Definition private_networks : list (N * N) :=
  [ (quad 0 0 0 0, 8); (quad 10 0 0 0, 8); (quad 127 0 0 0, 8);
    (quad 169 254 0 0, 16); (quad 172 16 0 0, 12); (quad 192 0 0 0, 29);
    (quad 192 0 0 170, 31); (quad 192 0 2 0, 24); (quad 192 168 0 0, 16);
    (quad 198 18 0 0, 15); (quad 198 51 100 0, 24); (quad 203 0 113 0, 24);
    (quad 240 0 0 0, 4); (quad 255 255 255 255, 32) ]%N.

Definition v4_private (ip : N) : bool :=
  existsb (fun n => in_network ip (fst n) (snd n)) private_networks.

Definition properties (ip : N) : ip_obj :=
  {| is_multicast := in_network ip (quad 224 0 0 0) 4;
     is_global := negb (in_network ip (quad 100 64 0 0) 10) && negb (v4_private ip);
     is_loopback := in_network ip (quad 127 0 0 0) 8;
     is_link_local := in_network ip (quad 169 254 0 0) 16;
     is_unspecified := N.eqb ip 0;
     is_private := v4_private ip;
     is_reserved := in_network ip (quad 240 0 0 0) 4 |}.

(** [ipaddress.ip_address] on a string or a bool (an [int] for Python:
    the address with that number). *)
Definition ip_address (v : pyval) : option ip_obj :=
  match v with
  | VStr s => option_map properties (parse s)
  | VBool b => Some (properties (if b then 1 else 0)%N)
  | VNone | VNaN => None
  end.

End IPv4.

(** Clients with fixed answers. *)
Module Clients.

Definition google : WhoisRecord :=
  {| asn_description := "GOOGLE, US";
     other_fields := [("asn", "15169"); ("asn_country_code", "US")] |}.

(** Every lookup succeeds. *)
Definition always_found (n : nat) (ip : pyval) : whois_outcome := Found google.

(** Every lookup is refused for its rate. *)
Definition rate_limited (n : nat) (ip : pyval) : whois_outcome := Failed HTTPRateLimitError.

(** The first lookup of the process fails, the later ones succeed. *)
Definition fails_once (n : nat) (ip : pyval) : whois_outcome :=
  match n with
  | 0 => Failed HostLookupError
  | S _ => Found google
  end.

(** [arg_to_list] on a string without delimiter. *)
Definition one_item (s : string) : list string := [s].

Definition no_location (ip : pyval) : option string := None.

End Clients.

(** Tables for the examples. *)
Module Tables.

(** One row, a [Public] address and a note. *)
Definition dns : DataFrame :=
  {| columns := ["ip"; "note"];
     rows := [[CVal (VStr "8.8.8.8"); CVal (VStr "dns")]] |}.

(** Two rows, a private address and a [Public] one. *)
Definition hosts : DataFrame :=
  {| columns := ["ip"];
     rows := [[CVal (VStr "10.0.0.5")]; [CVal (VStr "8.8.8.8")]] |}.

(** Two rows, the second with an empty address. *)
Definition blank : DataFrame :=
  {| columns := ["ip"];
     rows := [[CVal (VStr "8.8.8.8")]; [CVal (VStr EmptyString)]] |}.

(** One row, a string of three items with a repetition. *)
Definition listed : DataFrame :=
  {| columns := ["ip"];
     rows := [[CVal (VStr "1.1.1.1, 8.8.8.8 ,1.1.1.1")]] |}.

(** A world in which [df] is the only DataFrame, at reference 0. *)
Definition holding (df : DataFrame) : world := set_frames [df] empty_world.

End Tables.

(** Calls that fill the table: [get_whois_info(a)] for the 1024
    addresses [x.y.0.1] with [x] from 11 to 74 and [y] from 0 to 15,
    each of them [Public]. *)
Module Filler.

Definition decimal (n : nat) : string := NilEmpty.string_of_uint (Nat.to_uint n).

Definition address (n : nat) : string :=
  decimal (11 + n mod 64) +:+ "." +:+ decimal (n / 64) +:+ ".0.1".

Definition calls : list call :=
  map (fun n => {| args := [VStr (address n)]; kwds := [] |}) (seq 0 1024).

End Filler.

(** * Properties *)

Lemma string_length_app (s1 s2 : string) :
  String.length (s1 +:+ s2) = String.length s1 + String.length s2.
Proof.
  induction s1 as [|a s1 IH]; [reflexivity|].
  change (String a s1 +:+ s2) with (String a (s1 +:+ s2)).
  cbn [String.length]. now rewrite IH.
Qed.

Section Properties.

Variable ip_address : pyval -> option ip_obj.
Variable lookup_whois : nat -> pyval -> whois_outcome.

(** ** get_ip_type *)

Lemma get_ip_type_parsed ip ip_str a w :
  truthy (py_or ip ip_str) = true ->
  ip_address (py_or ip ip_str) = Some a ->
  get_ip_type ip_address ip ip_str w = (Ok (classify_spec a), w).
Proof.
  intros Ht Hp. unfold get_ip_type. rewrite Ht, Hp. cbn [negb].
  unfold classify_spec, scope_priority. cbn [find fst snd].
  destruct (is_multicast a); [reflexivity|].
  destruct (is_global a); [reflexivity|].
  destruct (is_loopback a); [reflexivity|].
  destruct (is_link_local a); [reflexivity|].
  destruct (is_unspecified a); [reflexivity|].
  destruct (is_private a); [reflexivity|].
  destruct (is_reserved a); reflexivity.
Qed.

Lemma get_ip_type_unparsed ip ip_str w :
  truthy (py_or ip ip_str) = true ->
  ip_address (py_or ip ip_str) = None ->
  get_ip_type ip_address ip ip_str w
  = (Ok "Unspecified", add_output (diagnostic (py_or ip ip_str)) w).
Proof.
  intros Ht Hp. unfold get_ip_type. rewrite Ht, Hp. reflexivity.
Qed.

Lemma get_ip_type_missing ip ip_str w :
  truthy (py_or ip ip_str) = false ->
  get_ip_type ip_address ip ip_str w
  = (Raise (ValueError "'ip' or 'ip_str' value must be specified"), w).
Proof.
  intros Ht. unfold get_ip_type. rewrite Ht. reflexivity.
Qed.

(** C1: for a value that [ipaddress] parses, [get_ip_type] returns the
    category of the first scope predicate that holds, in the order
    multicast, global, loopback, link-local, unspecified, private,
    reserved, and [Unspecified] when none holds, and prints nothing; for
    a non-empty value that does not parse it prints the diagnostic and
    returns [Unspecified]; it raises in neither case. *)
Theorem get_ip_type_classifies ip ip_str w :
  truthy (py_or ip ip_str) = true ->
  match ip_address (py_or ip ip_str) with
  | Some a => get_ip_type ip_address ip ip_str w = (Ok (classify_spec a), w)
  | None =>
      get_ip_type ip_address ip ip_str w
      = (Ok "Unspecified", add_output (diagnostic (py_or ip ip_str)) w)
  end.
Proof.
  intros Ht. destruct (ip_address (py_or ip ip_str)) as [a|] eqn:Hp.
  - now apply get_ip_type_parsed.
  - now apply get_ip_type_unparsed.
Qed.

End Properties.

(** The categories of some addresses, with the IPv4 parser. *)
Example get_ip_type_examples :
  map (fun s => fst (get_ip_type IPv4.ip_address (VStr s) VNone empty_world))
      ["8.8.8.8"; "127.0.0.1"; "10.0.0.5"; "224.0.0.1"; "169.254.1.1"; "not-an-ip"]
  = [Ok "Public"; Ok "Loopback"; Ok "Private"; Ok "Multicast"; Ok "Link Local";
     Ok "Unspecified"].
Proof. reflexivity. Qed.

Example get_ip_type_diagnostic :
  stdout (snd (get_ip_type IPv4.ip_address (VStr "not-an-ip") VNone empty_world))
  = ["not-an-ip does not appear to be an IPv4 or IPv6 address" +:+ newline].
Proof. reflexivity. Qed.

Lemma get_ip_type_classifies_witness :
  get_ip_type IPv4.ip_address (VStr "10.0.0.5") VNone empty_world
  = (Ok "Private", empty_world).
Proof.
  exact (get_ip_type_classifies IPv4.ip_address (VStr "10.0.0.5") VNone empty_world eq_refl).
Defined.

(** ** get_whois_info *)

Section Resolver.

Variable ip_address : pyval -> option ip_obj.
Variable lookup_whois : nat -> pyval -> whois_outcome.

Local Abbreviation get_whois_info_body := (get_whois_info_body ip_address lookup_whois).
Local Abbreviation get_whois_info := (get_whois_info ip_address lookup_whois).
Local Abbreviation ip_type_of := (ip_type_of ip_address).
Local Abbreviation cache_sound := (cache_sound ip_address lookup_whois).
Local Abbreviation run := (run ip_address lookup_whois).
Local Abbreviation category := (category ip_address).
Local Abbreviation completes_lookup := (completes_lookup ip_address lookup_whois).

Lemma ip_type_of_category v :
  truthy v = true -> ip_type_of v = Ok (category v).
Proof.
  intros Ht. unfold ip_type_of, category.
  assert (Hv : py_or v VNone = v) by (unfold py_or; now rewrite Ht).
  destruct (ip_address v) as [a|] eqn:Hp.
  - rewrite (get_ip_type_parsed ip_address v VNone a); rewrite ?Hv; auto.
  - rewrite (get_ip_type_unparsed ip_address v VNone); rewrite ?Hv; auto.
Qed.

Lemma address_of_truthy c v : address_of c = Some v -> truthy v = true.
Proof.
  unfold address_of. destruct (bind_args c) as [[[ip sp] kw]|]; [|discriminate].
  cbn zeta. destruct (truthy _) eqn:Ht; [|discriminate].
  intros [= <-]. exact Ht.
Qed.

Lemma getitem_asn_description r :
  getitem (record_dict r) "asn_description" = Ok (asn_description r).
Proof. reflexivity. Qed.

(** The decorated function, path by path. *)
Lemma body_unfold c w :
  get_whois_info_body c w =
  match bind_args c with
  | Raise e => (Raise e, w)
  | Ok (ip, show_progress, kwargs) =>
      let v := py_or ip (default VNone (kw_get kwargs "ip_str")) in
      if truthy v then
        match ip_address v with
        | None =>
            (Ok ("No ASN Information for IP type: " +:+ "Unspecified", []),
             add_output (diagnostic v) w)
        | Some a =>
            if String.eqb (classify_spec a) "Public" then
              match lookup_whois (length (lookups w)) v with
              | Found r =>
                  (Ok (asn_description r, record_dict r),
                   if truthy show_progress
                   then add_output "." (add_lookup v w) else add_lookup v w)
              | Failed e =>
                  (Ok ("Error during lookup of " +:+ pystr v +:+ " " +:+ type_repr e, []),
                   add_lookup v w)
              end
            else (Ok ("No ASN Information for IP type: " +:+ classify_spec a, []), w)
        end
      else (Raise (ValueError "'ip' or 'ip_str' value must be specified"), w)
  end.
Proof.
  unfold get_whois_info_body, bind at 1, lift.
  destruct (bind_args c) as [[[ip sp] kw]|e]; [|reflexivity].
  cbn zeta. set (v := py_or ip (default VNone (kw_get kw "ip_str"))).
  destruct (truthy v) eqn:Ht; [|reflexivity]. cbn [negb].
  assert (Hv : py_or v VNone = v) by (unfold py_or; now rewrite Ht).
  unfold bind at 1.
  destruct (ip_address v) as [a|] eqn:Hp.
  - rewrite (get_ip_type_parsed ip_address v VNone a) by (rewrite ?Hv; auto).
    destruct (String.eqb (classify_spec a) "Public"); [|reflexivity].
    unfold bind at 1, whois_lookup.
    destruct (lookup_whois (length (lookups w)) v) as [r|e]; [|reflexivity].
    unfold bind at 1. destruct (truthy sp); reflexivity.
  - rewrite (get_ip_type_unparsed ip_address v VNone) by (rewrite ?Hv; auto).
    rewrite Hv. reflexivity.
Qed.

Lemma address_of_inv c v :
  address_of c = Some v ->
  exists ip sp kw,
    bind_args c = Ok (ip, sp, kw) /\
    v = py_or ip (default VNone (kw_get kw "ip_str")) /\
    truthy v = true /\ shows_progress c = truthy sp.
Proof.
  unfold address_of, shows_progress.
  destruct (bind_args c) as [[[ip sp] kw]|]; [|discriminate].
  cbn zeta. destruct (truthy _) eqn:Ht; [|discriminate].
  intros [= <-]. exists ip, sp, kw. auto.
Qed.

(** The decorated function on a call that names an address. *)
Lemma body_address c v w :
  address_of c = Some v ->
  get_whois_info_body c w =
  match ip_address v with
  | None =>
      (Ok ("No ASN Information for IP type: " +:+ "Unspecified", []),
       add_output (diagnostic v) w)
  | Some a =>
      if String.eqb (classify_spec a) "Public" then
        match lookup_whois (length (lookups w)) v with
        | Found r =>
            (Ok (asn_description r, record_dict r),
             if shows_progress c
             then add_output "." (add_lookup v w) else add_lookup v w)
        | Failed e =>
            (Ok ("Error during lookup of " +:+ pystr v +:+ " " +:+ type_repr e, []),
             add_lookup v w)
        end
      else (Ok ("No ASN Information for IP type: " +:+ classify_spec a, []), w)
  end.
Proof.
  intros (ip & sp & kw & Hb & Hv & Ht & Hs)%address_of_inv.
  rewrite body_unfold, Hb. cbn zeta. rewrite <- Hv, Ht, Hs. reflexivity.
Qed.

(** The decorated function on a call that names no address: it raises
    and changes nothing. *)
Lemma body_no_address c :
  address_of c = None ->
  exists e, forall w', get_whois_info_body c w' = (Raise e, w').
Proof.
  unfold address_of. intros H.
  destruct (bind_args c) as [[[ip sp] kw]|e] eqn:Hb.
  - cbn zeta in H. destruct (truthy _) eqn:Ht; [discriminate|].
    eexists. intros w'. rewrite body_unfold, Hb. cbn zeta. rewrite Ht. reflexivity.
  - exists e. intros w'. rewrite body_unfold, Hb. reflexivity.
Qed.

Lemma body_cache c w : cache (snd (get_whois_info_body c w)) = cache w.
Proof.
  destruct (address_of c) as [v|] eqn:Ha.
  - rewrite (body_address c v w Ha).
    destruct (ip_address v) as [a|]; [|reflexivity].
    destruct (String.eqb _ _); [|reflexivity].
    destruct (lookup_whois _ _); [|reflexivity].
    destruct (shows_progress c); reflexivity.
  - destruct (body_no_address c Ha) as [e He]. now rewrite He.
Qed.

Lemma body_frames c w : frames (snd (get_whois_info_body c w)) = frames w.
Proof.
  destruct (address_of c) as [v|] eqn:Ha.
  - rewrite (body_address c v w Ha).
    destruct (ip_address v) as [a|]; [|reflexivity].
    destruct (String.eqb _ _); [|reflexivity].
    destruct (lookup_whois _ _); [|reflexivity].
    destruct (shows_progress c); reflexivity.
  - destruct (body_no_address c Ha) as [e He]. now rewrite He.
Qed.

Lemma body_raises_unchanged c w e :
  fst (get_whois_info_body c w) = Raise e ->
  forall w', get_whois_info_body c w' = (Raise e, w').
Proof.
  destruct (address_of c) as [v|] eqn:Ha.
  - rewrite (body_address c v w Ha).
    destruct (ip_address v) as [a|]; [|discriminate].
    destruct (String.eqb _ _); [|discriminate].
    destruct (lookup_whois _ _); discriminate.
  - destruct (body_no_address c Ha) as [e' He]. rewrite He. cbn.
    intros [= <-]. exact He.
Qed.

(** *** The wrapper *)

Lemma lru_hit (c : call) (w : world) v :
  cache_get c (cache w) = Some v ->
  get_whois_info c w = (Ok v, set_cache ((c, v) :: cache_remove c (cache w)) w).
Proof.
  intros H. unfold get_whois_info, lru_cache. now rewrite H.
Qed.

Lemma lru_miss (c : call) (w : world) :
  cache_get c (cache w) = None ->
  get_whois_info c w =
  match get_whois_info_body c w with
  | (Ok v, w') => (Ok v, set_cache (cache_put maxsize c v (cache w)) w')
  | (Raise e, w') => (Raise e, w')
  end.
Proof.
  intros H. unfold get_whois_info, lru_cache. rewrite H.
  pose proof (body_cache c w) as Hc.
  destruct (get_whois_info_body c w) as [[v|e] w']; [|reflexivity].
  cbn in Hc. rewrite Hc, H. reflexivity.
Qed.

Lemma cache_get_head c v l : cache_get c ((c, v) :: l) = Some v.
Proof. cbn. now rewrite decide_True. Qed.

Lemma cache_get_put_head n c v l : cache_get c (cache_put n c v l) = Some v.
Proof. unfold cache_put. apply cache_get_head. Qed.

Lemma maxsize_pos : 0 < maxsize.
Proof. unfold maxsize. lia. Qed.

Lemma cache_get_remove_ne k c (l : list (call * (string * dict))) :
  k <> c -> cache_get k (cache_remove c l) = cache_get k l.
Proof.
  intros Hne. induction l as [|[k' v'] l IH]; [reflexivity|]. cbn.
  destruct (decide (k' = c)) as [->|Hc].
  - now rewrite (decide_False (P := c = k)) by congruence.
  - cbn. destruct (decide (k' = k)); [reflexivity|exact IH].
Qed.

Lemma cache_get_removelast k v (l : list (call * (string * dict))) :
  cache_get k (removelast l) = Some v -> cache_get k l = Some v.
Proof.
  induction l as [|[k' v'] l IH]; [discriminate|].
  destruct l as [|p l']; [discriminate|].
  change (removelast ((k', v') :: p :: l')) with ((k', v') :: removelast (p :: l')).
  cbn [cache_get]. destruct (decide (k' = k)); [auto|]. exact IH.
Qed.

Lemma cache_get_put k c v v' n (l : list (call * (string * dict))) :
  cache_get k (cache_put n c v l) = Some v' ->
  (k = c /\ v' = v) \/ cache_get k l = Some v'.
Proof.
  unfold cache_put. cbn [cache_get].
  destruct (decide (c = k)) as [->|Hne].
  - intros [= <-]. now left.
  - intros H. right. destruct (decide (n <= length l)); [|exact H].
    now apply cache_get_removelast.
Qed.

(** Each call keeps the table sound. *)
Lemma cache_sound_step c w : cache_sound w -> cache_sound (snd (get_whois_info c w)).
Proof.
  intros Hs k v'. destruct (cache_get c (cache w)) as [v|] eqn:Hc.
  - rewrite (lru_hit c w v Hc). cbn [snd set_cache cache cache_get].
    destruct (decide (c = k)) as [->|Hne].
    + intros [= <-]. now apply Hs.
    + rewrite cache_get_remove_ne by congruence. apply Hs.
  - rewrite (lru_miss c w Hc).
    pose proof (body_cache c w) as Hbc.
    destruct (get_whois_info_body c w) as [[v|e] w1] eqn:Hb; cbn in Hbc.
    + cbn [snd set_cache cache]. intros [[-> ->]|H]%cache_get_put.
      * exists w. now rewrite Hb.
      * now apply Hs.
    + cbn [snd]. rewrite Hbc. apply Hs.
Qed.

Lemma cache_sound_empty (w : world) : cache w = [] -> cache_sound w.
Proof. intros H k v. rewrite H. discriminate. Qed.

Lemma cache_sound_run cs w : cache_sound w -> cache_sound (run cs w).
Proof.
  revert w. induction cs as [|c cs IH]; intros w Hs; [exact Hs|].
  cbn. apply IH. now apply cache_sound_step.
Qed.

(** The decorated function on an address that is not [Public]. *)
Lemma body_non_public c v t w :
  address_of c = Some v -> ip_type_of v = Ok t -> t <> "Public" ->
  fst (get_whois_info_body c w) = Ok ("No ASN Information for IP type: " +:+ t, []) /\
  lookups (snd (get_whois_info_body c w)) = lookups w /\
  markers (stdout (snd (get_whois_info_body c w))) = markers (stdout w).
Proof.
  intros Ha Ht Hne. rewrite (body_address c v w Ha).
  rewrite (ip_type_of_category v (address_of_truthy c v Ha)) in Ht.
  unfold category in Ht. injection Ht as <-.
  destruct (ip_address v) as [a|].
  - apply String.eqb_neq in Hne. rewrite Hne. auto.
  - cbn [fst snd add_output lookups stdout]. repeat split.
    unfold markers. rewrite filter_app, length_app. cbn [filter list_filter].
    rewrite decide_False; [cbn; lia|].
    unfold diagnostic, newline. intros H. apply (f_equal String.length) in H.
    rewrite !string_length_app in H. cbn in H. lia.
Qed.

(** C2: for a call whose address has a category other than [Public],
    [get_whois_info] returns the summary that names the category, with
    an empty record, and makes no lookup with the WHOIS client. *)
Theorem get_whois_info_non_public c v t w :
  cache_sound w ->
  address_of c = Some v -> ip_type_of v = Ok t -> t <> "Public" ->
  fst (get_whois_info c w) = Ok ("No ASN Information for IP type: " +:+ t, []) /\
  lookups (snd (get_whois_info c w)) = lookups w.
Proof.
  intros Hs Ha Ht Hne. destruct (cache_get c (cache w)) as [r|] eqn:Hc.
  - rewrite (lru_hit c w r Hc). cbn [fst snd set_cache lookups]. split; [|reflexivity].
    destruct (Hs c r Hc) as [w0 Hw0].
    destruct (body_non_public c v t w0 Ha Ht Hne) as [Hr _]. congruence.
  - rewrite (lru_miss c w Hc).
    destruct (body_non_public c v t w Ha Ht Hne) as (Hr & Hl & _).
    destruct (get_whois_info_body c w) as [[r|e] w1]; cbn in *; [|discriminate].
    split; [congruence|exact Hl].
Qed.

(** C3: when the call is not answered from the table, its address is
    [Public] and the WHOIS client raises one of its errors, then
    [get_whois_info] returns, without raising, the summary made of the
    address and of the class of the error, with an empty record. *)
Theorem get_whois_info_lookup_failure c v e w :
  address_of c = Some v -> ip_type_of v = Ok "Public" ->
  cache_get c (cache w) = None ->
  lookup_whois (length (lookups w)) v = Failed e ->
  fst (get_whois_info c w)
  = Ok ("Error during lookup of " +:+ pystr v +:+ " " +:+ type_repr e, []).
Proof.
  intros Ha Ht Hc Hl. rewrite (lru_miss c w Hc), (body_address c v w Ha).
  rewrite (ip_type_of_category v (address_of_truthy c v Ha)) in Ht.
  unfold category in Ht. injection Ht as Ht.
  destruct (ip_address v) as [a|]; [|discriminate].
  rewrite Ht, String.eqb_refl, Hl. reflexivity.
Qed.

(** C10: for a call that asks for progress, [get_whois_info] prints one
    marker when the call completes a lookup (it misses the table, the
    address is [Public] and the client returns a record), and prints no
    marker otherwise: not on a hit, not for another category, not when
    the client raises. *)
Theorem get_whois_info_progress c w :
  shows_progress c = true ->
  (completes_lookup c w ->
   stdout (snd (get_whois_info c w)) = stdout w ++ ["."]) /\
  (~ completes_lookup c w ->
   markers (stdout (snd (get_whois_info c w))) = markers (stdout w)).
Proof.
  intros Hp. split.
  - intros (Hc & v & r & Ha & Ht & Hl).
    rewrite (lru_miss c w Hc), (body_address c v w Ha).
    rewrite (ip_type_of_category v (address_of_truthy c v Ha)) in Ht.
    unfold category in Ht. injection Ht as Ht.
    destruct (ip_address v) as [a|]; [|discriminate].
    rewrite Ht, String.eqb_refl, Hl, Hp. reflexivity.
  - intros Hn. destruct (cache_get c (cache w)) as [r|] eqn:Hc.
    + now rewrite (lru_hit c w r Hc).
    + rewrite (lru_miss c w Hc).
      assert (Hm : markers (stdout (snd (get_whois_info_body c w))) = markers (stdout w)).
      { destruct (address_of c) as [v|] eqn:Ha.
        - destruct (String.eqb (category v) "Public") eqn:Hcat.
          + apply String.eqb_eq in Hcat.
            rewrite (body_address c v w Ha).
            unfold category in Hcat. destruct (ip_address v) as [a|] eqn:Hip;
              [|discriminate].
            rewrite Hcat, String.eqb_refl.
            destruct (lookup_whois (length (lookups w)) v) as [r|e] eqn:Hl;
              [|reflexivity].
            exfalso. apply Hn. split; [exact Hc|]. exists v, r.
            repeat split; auto.
            rewrite (ip_type_of_category v (address_of_truthy c v Ha)).
            unfold category. now rewrite Hip, Hcat.
          + apply String.eqb_neq in Hcat.
            apply (body_non_public c v (category v) w Ha); [|exact Hcat].
            apply ip_type_of_category, (address_of_truthy c v Ha).
        - destruct (body_no_address c Ha) as [e He]. now rewrite He. }
      destruct (get_whois_info_body c w) as [[r|e] w1]; exact Hm.
Qed.

End Resolver.

Lemma get_whois_info_non_public_witness :
  fst (get_whois_info IPv4.ip_address Clients.always_found
         {| args := [VStr "10.0.0.5"]; kwds := [] |} empty_world)
  = Ok ("No ASN Information for IP type: " +:+ "Private", []) /\
  lookups (snd (get_whois_info IPv4.ip_address Clients.always_found
                  {| args := [VStr "10.0.0.5"]; kwds := [] |} empty_world))
  = lookups empty_world.
Proof.
  apply (get_whois_info_non_public IPv4.ip_address Clients.always_found
           {| args := [VStr "10.0.0.5"]; kwds := [] |} (VStr "10.0.0.5") "Private"
           empty_world).
  - now apply cache_sound_empty.
  - reflexivity.
  - reflexivity.
  - discriminate.
Defined.

Lemma get_whois_info_lookup_failure_witness :
  fst (get_whois_info IPv4.ip_address Clients.rate_limited
         {| args := [VStr "8.8.8.8"]; kwds := [] |} empty_world)
  = Ok ("Error during lookup of " +:+ pystr (VStr "8.8.8.8") +:+ " "
        +:+ type_repr HTTPRateLimitError, []).
Proof.
  apply (get_whois_info_lookup_failure IPv4.ip_address Clients.rate_limited
           {| args := [VStr "8.8.8.8"]; kwds := [] |} (VStr "8.8.8.8")
           HTTPRateLimitError empty_world); reflexivity.
Defined.

Lemma get_whois_info_progress_witness :
  stdout (snd (get_whois_info IPv4.ip_address Clients.always_found
                 {| args := [VStr "8.8.8.8"]; kwds := [("show_progress", VBool true)] |}
                 empty_world))
  = stdout empty_world ++ ["."].
Proof.
  apply (get_whois_info_progress IPv4.ip_address Clients.always_found
           {| args := [VStr "8.8.8.8"]; kwds := [("show_progress", VBool true)] |}
           empty_world eq_refl).
  split; [reflexivity|].
  exists (VStr "8.8.8.8"), Clients.google. repeat split.
Defined.

(** The summary of a failed lookup in full, as the caller sees it. *)
Example rate_limit_summary :
  fst (get_whois_info IPv4.ip_address Clients.rate_limited
         {| args := [VStr "8.8.8.8"]; kwds := [] |} empty_world)
  = Ok ("Error during lookup of 8.8.8.8 <class 'ipwhois.exceptions.HTTPRateLimitError'>",
        []).
Proof. reflexivity. Qed.

(** A failed lookup is stored: the second call returns the summary of the
    failure although the client would now succeed, and only one lookup
    was made. *)
Example failure_is_cached :
  let c := {| args := [VStr "8.8.8.8"]; kwds := [] |} in
  let w1 := snd (get_whois_info IPv4.ip_address Clients.fails_once c empty_world) in
  let second := get_whois_info IPv4.ip_address Clients.fails_once c w1 in
  fst second
  = Ok ("Error during lookup of 8.8.8.8 <class 'ipwhois.exceptions.HostLookupError'>", [])
  /\ lookups (snd second) = [VStr "8.8.8.8"].
Proof. split; reflexivity. Qed.

(** The progress flag is part of the key: the same address asked with
    and without it is looked up twice. *)
Example progress_flag_in_key :
  lookups (run IPv4.ip_address Clients.always_found
             [ {| args := [VStr "8.8.8.8"]; kwds := [("show_progress", VBool true)] |};
               {| args := [VStr "8.8.8.8"]; kwds := [("show_progress", VBool false)] |} ]
             empty_world)
  = [VStr "8.8.8.8"; VStr "8.8.8.8"].
Proof. reflexivity. Qed.


(** ** The table of [lru_cache]: what stays and what is evicted *)

Section Lru.

Variable ip_address : pyval -> option ip_obj.
Variable lookup_whois : nat -> pyval -> whois_outcome.

Local Abbreviation get_whois_info_body := (get_whois_info_body ip_address lookup_whois).
Local Abbreviation get_whois_info := (get_whois_info ip_address lookup_whois).
Local Abbreviation run := (run ip_address lookup_whois).

Implicit Types (l front back : list (call * (string * dict))) (k c : call).

Lemma cache_get_elem c l v : cache_get c l = Some v -> elem_of c (fmap fst l).
Proof.
  induction l as [|[k' v'] l IH]; [discriminate|]. cbn [cache_get].
  rewrite fmap_cons. cbn [fst].
  destruct (decide (k' = c)) as [->|]; intros H.
  - apply elem_of_cons. now left.
  - apply elem_of_cons. right. auto.
Qed.

Lemma cache_get_not_elem c l : cache_get c l = None -> ~ elem_of c (fmap fst l).
Proof.
  induction l as [|[k' v'] l IH]; cbn [cache_get].
  - intros _ H. inversion H.
  - rewrite fmap_cons. cbn [fst]. destruct (decide (k' = c)); [discriminate|].
    intros H [->|Hin]%elem_of_cons; [congruence|]. now apply IH.
Qed.

Lemma cache_get_app_notin c front l :
  ~ elem_of c (fmap fst front) -> cache_get c (front ++ l) = cache_get c l.
Proof.
  induction front as [|[k' v'] front IH]; [reflexivity|].
  rewrite fmap_cons. cbn [fst]. intros Hn. cbn.
  rewrite decide_False.
  - apply IH. intros H. apply Hn, elem_of_cons. now right.
  - intros ->. apply Hn, elem_of_cons. now left.
Qed.

Lemma cache_remove_app_in c front l :
  elem_of c (fmap fst front) ->
  cache_remove c (front ++ l) = cache_remove c front ++ l.
Proof.
  induction front as [|[k' v'] front IH].
  - intros H. inversion H.
  - rewrite fmap_cons. cbn. destruct (decide (k' = c)); [reflexivity|].
    intros [->|Hin]%elem_of_cons; [congruence|]. cbn. now rewrite IH.
Qed.

Lemma cache_remove_app_notin c front l :
  ~ elem_of c (fmap fst front) ->
  cache_remove c (front ++ l) = front ++ cache_remove c l.
Proof.
  induction front as [|[k' v'] front IH]; [reflexivity|].
  rewrite fmap_cons. cbn. intros Hn. rewrite decide_False.
  - rewrite IH; [reflexivity|]. intros H. apply Hn, elem_of_cons. now right.
  - intros ->. apply Hn, elem_of_cons. now left.
Qed.

Lemma cache_remove_subset c l k :
  elem_of k (fmap fst (cache_remove c l)) -> elem_of k (fmap fst l).
Proof.
  induction l as [|[k' v'] l IH]; [auto|]. cbn.
  destruct (decide (k' = c)).
  - intros H. apply elem_of_cons. now right.
  - cbn. intros [->|H]%elem_of_cons; apply elem_of_cons; auto.
Qed.

Lemma cache_remove_nodup c l :
  NoDup (fmap fst l) ->
  NoDup (fmap fst (cache_remove c l)) /\ ~ elem_of c (fmap fst (cache_remove c l)).
Proof.
  induction l as [|[k' v'] l IH].
  - intros _. split; [constructor|]. intros H. inversion H.
  - rewrite fmap_cons. cbn. intros [Hn Hnd]%NoDup_cons.
    destruct (decide (k' = c)) as [->|Hne]; [auto|].
    destruct (IH Hnd) as [IH1 IH2]. cbn. split.
    + apply NoDup_cons. split; [|exact IH1].
      intros H. now apply Hn, (cache_remove_subset c).
    + intros [->|H]%elem_of_cons; [congruence|auto].
Qed.

Lemma kept_get k v used l : kept k v used l -> cache_get k l = Some v.
Proof.
  intros (front & back & -> & Hn & _). rewrite cache_get_app_notin by exact Hn.
  apply cache_get_head.
Qed.

Lemma kept_weaken k v used used' l :
  (forall k', elem_of k' used -> elem_of k' used') ->
  kept k v used l -> kept k v used' l.
Proof.
  intros Hs (front & back & Hl & Hn & Hnd & Hsub).
  exists front, back. repeat split; auto.
Qed.

(** The number of distinct elements grows with the list. *)
Lemma distinct_mono (a b : list call) :
  (forall x, elem_of x a -> elem_of x b) ->
  length (remove_dups a) <= length (remove_dups b).
Proof.
  intros H. apply submseteq_length, NoDup_submseteq.
  - apply NoDup_remove_dups.
  - intros x Hx. apply elem_of_remove_dups, H.
    exact (proj1 (elem_of_remove_dups _ _) Hx).
Qed.

Lemma front_length front c (used : list call) :
  NoDup (fmap fst front) -> ~ elem_of c (fmap fst front) ->
  (forall k', elem_of k' (fmap fst front) -> elem_of k' used) ->
  S (length front) <= length (remove_dups (c :: used)).
Proof.
  intros Hnd Hn Hsub.
  replace (S (length front)) with (length (c :: fmap fst front))
    by (cbn; now rewrite length_fmap).
  apply submseteq_length, NoDup_submseteq.
  - apply NoDup_cons. auto.
  - intros x Hx. apply elem_of_remove_dups.
    apply elem_of_cons in Hx as [->|Hx]; apply elem_of_cons; auto.
Qed.

(** A call with another key keeps [k] in the table, as long as the keys
    used since [k] are fewer than [maxsize]. *)
Lemma kept_step k v used c (w : world) :
  kept k v used (cache w) -> c <> k ->
  length (remove_dups (c :: used)) < maxsize ->
  kept k v (c :: used) (cache (snd (get_whois_info c w))).
Proof.
  intros (front & back & Hl & Hn & Hnd & Hsub) Hne Hlen.
  assert (Hsub' : forall k', elem_of k' (fmap fst front) -> elem_of k' (c :: used)).
  { intros k' Hk'. apply elem_of_cons. right. auto. }
  destruct (cache_get c (cache w)) as [v'|] eqn:Hc.
  - rewrite (lru_hit ip_address lookup_whois c w v' Hc).
    cbn [snd set_cache cache]. rewrite Hl.
    destruct (decide (elem_of c (fmap fst front))) as [Hin|Hnin].
    + rewrite cache_remove_app_in by exact Hin.
      destruct (cache_remove_nodup c front Hnd) as [Hnd' Hn'].
      exists ((c, v') :: cache_remove c front), back. repeat split.
      * rewrite fmap_cons. cbn [fst]. intros [->|H]%elem_of_cons; [congruence|].
        now apply Hn, (cache_remove_subset c).
      * rewrite fmap_cons. apply NoDup_cons. auto.
      * rewrite fmap_cons. cbn [fst]. intros k' [->|H]%elem_of_cons.
        -- apply elem_of_cons. now left.
        -- apply Hsub', (cache_remove_subset c), H.
    + rewrite cache_remove_app_notin by exact Hnin. cbn [cache_remove].
      rewrite decide_False by congruence.
      exists ((c, v') :: front), (cache_remove c back). repeat split.
      * rewrite fmap_cons. cbn [fst]. intros [->|H]%elem_of_cons; [congruence|auto].
      * rewrite fmap_cons. apply NoDup_cons. auto.
      * rewrite fmap_cons. cbn [fst]. intros k' [->|H]%elem_of_cons.
        -- apply elem_of_cons. now left.
        -- auto.
  - rewrite (lru_miss ip_address lookup_whois c w Hc).
    pose proof (body_cache ip_address lookup_whois c w) as Hbc.
    destruct (get_whois_info_body c w) as [[v'|e] w1]; cbn in Hbc; cbn [snd].
    + cbn [set_cache cache]. unfold cache_put.
      apply cache_get_not_elem in Hc. rewrite Hl in Hc.
      rewrite fmap_app in Hc.
      assert (Hcf : ~ elem_of c (fmap fst front)).
      { intros H. apply Hc, elem_of_app. now left. }
      assert (Hfront : forall back',
                 kept k v (c :: used) ((c, v') :: front ++ (k, v) :: back')).
      { intros back'. exists ((c, v') :: front), back'. repeat split.
        - rewrite fmap_cons. cbn [fst].
          intros [->|H]%elem_of_cons; [congruence|auto].
        - rewrite fmap_cons. apply NoDup_cons. auto.
        - rewrite fmap_cons. cbn [fst]. intros k' [->|H]%elem_of_cons.
          + apply elem_of_cons. now left.
          + auto. }
      destruct (decide (maxsize <= length (cache w))) as [Hfull|_];
        [|rewrite Hl; apply Hfront].
      rewrite Hl in Hfull |- *.
      destruct (decide (back = [])) as [->|Hback].
      * exfalso. rewrite length_app in Hfull. cbn in Hfull.
        pose proof (front_length front c used Hnd Hcf Hsub). lia.
      * rewrite removelast_app by discriminate.
        destruct back as [|b back']; [congruence|].
        change (removelast ((k, v) :: b :: back'))
          with ((k, v) :: removelast (b :: back')).
        apply Hfront.
    + rewrite Hbc. exists front, back. repeat split; auto.
Qed.

(** A call with key [k] itself keeps [k] in the table. *)
Lemma kept_step_same k v used (w : world) :
  kept k v used (cache w) ->
  kept k v used (cache (snd (get_whois_info k w))).
Proof.
  intros Hk. rewrite (lru_hit ip_address lookup_whois k w v (kept_get _ _ _ _ Hk)).
  cbn [snd set_cache cache]. exists [], (cache_remove k (cache w)).
  repeat split.
  - intros H. inversion H.
  - constructor.
  - intros k' H. inversion H.
Qed.

Lemma kept_run k v cs : forall used (w : world),
  kept k v used (cache w) ->
  length (remove_dups (reverse (filter (fun c => c <> k) cs) ++ used)) < maxsize ->
  kept k v (reverse (filter (fun c => c <> k) cs) ++ used) (cache (run cs w)).
Proof.
  induction cs as [|c cs IH]; intros used w Hk Hlen; [exact Hk|].
  cbn [run]. destruct (decide (c = k)) as [->|Hne].
  - rewrite filter_cons_False in Hlen |- * by (intros H; now apply H).
    apply IH; [|exact Hlen]. now apply kept_step_same.
  - rewrite filter_cons_True in Hlen |- * by exact Hne.
    rewrite reverse_cons, <- app_assoc in Hlen |- *. cbn [app] in Hlen |- *.
    apply IH; [|exact Hlen]. apply kept_step; [exact Hk|exact Hne|].
    eapply Nat.le_lt_trans; [|exact Hlen]. apply distinct_mono.
    intros x Hx. apply elem_of_app. now right.
Qed.

Lemma lru_stores c (w : world) r :
  fst (get_whois_info c w) = Ok r ->
  exists rest, cache (snd (get_whois_info c w)) = (c, r) :: rest.
Proof.
  destruct (cache_get c (cache w)) as [v|] eqn:Hc.
  - rewrite (lru_hit ip_address lookup_whois c w v Hc). cbn. intros [= <-]. eauto.
  - rewrite (lru_miss ip_address lookup_whois c w Hc).
    destruct (get_whois_info_body c w) as [[v|e] w1]; cbn; [|discriminate].
    intros [= <-]. eauto.
Qed.

(** A call that returned is answered from the table after calls for
    fewer than [maxsize] distinct other keys. *)
Lemma ok_then_hit c (w : world) r mid :
  fst (get_whois_info c w) = Ok r ->
  length (remove_dups (filter (fun c' => c' <> c) mid)) < maxsize ->
  cache_get c (cache (run mid (snd (get_whois_info c w)))) = Some r.
Proof.
  intros Hr Hlen.
  destruct (lru_stores c w r Hr) as [rest Hrest].
  eapply kept_get. apply (kept_run c r mid []).
  - rewrite Hrest. exists [], rest. repeat split.
    + intros H. inversion H.
    + constructor.
    + intros k' H. inversion H.
  - eapply Nat.le_lt_trans; [|exact Hlen]. apply distinct_mono.
    intros x Hx. rewrite app_nil_r in Hx. exact (proj1 (elem_of_reverse _ _) Hx).
Qed.

(** Each call leaves at most [maxsize] entries in the table. *)
Lemma cache_remove_length c l v :
  cache_get c l = Some v -> S (length (cache_remove c l)) = length l.
Proof.
  induction l as [|[k' v'] l IH]; [discriminate|].
  cbn [cache_get cache_remove length].
  destruct (decide (k' = c)); [reflexivity|].
  intros H. cbn [length]. now rewrite IH.
Qed.

Lemma cache_put_length n c v l :
  0 < n -> length l <= n -> length (cache_put n c v l) <= n.
Proof.
  intros Hpos Hlen. unfold cache_put. cbn [length].
  destruct (decide (n <= length l)) as [Hfull|Hfree]; [|lia].
  destruct l as [|p l]; [cbn [length] in Hfull; lia|].
  assert (Hne : p :: l <> []) by discriminate.
  rewrite (app_removelast_last p Hne) in Hlen. rewrite length_app in Hlen.
  cbn [length] in Hlen. lia.
Qed.

Lemma cache_size_step c (w : world) :
  length (cache w) <= maxsize ->
  length (cache (snd (get_whois_info c w))) <= maxsize.
Proof.
  intros Hlen. destruct (cache_get c (cache w)) as [v|] eqn:Hc.
  - rewrite (lru_hit ip_address lookup_whois c w v Hc). cbn [snd set_cache cache length].
    now rewrite (cache_remove_length c (cache w) v Hc).
  - rewrite (lru_miss ip_address lookup_whois c w Hc).
    pose proof (body_cache ip_address lookup_whois c w) as Hbc.
    destruct (get_whois_info_body c w) as [[v|e] w1]; cbn [snd] in Hbc |- *.
    + cbn [set_cache cache]. apply cache_put_length; [apply maxsize_pos|exact Hlen].
    + now rewrite Hbc.
Qed.

Lemma cache_size_run cs : forall w : world,
  length (cache w) <= maxsize -> length (cache (run cs w)) <= maxsize.
Proof.
  induction cs as [|c cs IH]; intros w H; [exact H|].
  cbn. apply IH. now apply cache_size_step.
Qed.

(** C5 (as amended): the table is bounded.  A key that a call stored
    stays in the table, and a repeated call for it is answered from the
    table without a lookup, as long as fewer than [maxsize] = 1024
    distinct other keys were called since. *)
Theorem get_whois_info_retention c (w : world) r cs :
  fst (get_whois_info c w) = Ok r ->
  length (remove_dups (filter (fun c' => c' <> c) cs)) < maxsize ->
  let w' := run cs (snd (get_whois_info c w)) in
  cache_get c (cache w') = Some r /\
  fst (get_whois_info c w') = Ok r /\
  lookups (snd (get_whois_info c w')) = lookups w' /\
  (length (cache w) <= maxsize -> length (cache w') <= maxsize).
Proof.
  intros Hr Hlen w'.
  destruct (lru_stores c w r Hr) as [rest Hrest].
  assert (Hk : kept c r [] (cache (snd (get_whois_info c w)))).
  { rewrite Hrest. exists [], rest. repeat split.
    - intros H. inversion H.
    - constructor.
    - intros k' H. inversion H. }
  assert (Hk' : cache_get c (cache w') = Some r).
  { eapply kept_get. apply (kept_run c r cs [] _ Hk).
    eapply Nat.le_lt_trans; [|exact Hlen]. apply distinct_mono.
    intros x Hx. rewrite app_nil_r in Hx. exact (proj1 (elem_of_reverse _ _) Hx). }
  split; [exact Hk'|]. rewrite (lru_hit ip_address lookup_whois c w' r Hk').
  repeat split. intros Hb. apply cache_size_run, cache_size_step, Hb.
Qed.

End Lru.

Lemma get_whois_info_retention_witness :
  let c := {| args := [VStr "8.8.8.8"]; kwds := [] |} in
  let others := [ {| args := [VStr "1.1.1.1"]; kwds := [] |};
                  {| args := [VStr "10.0.0.5"]; kwds := [] |};
                  {| args := [VStr "1.1.1.1"]; kwds := [] |} ] in
  let w' := run IPv4.ip_address Clients.always_found others
              (snd (get_whois_info IPv4.ip_address Clients.always_found c empty_world)) in
  cache_get c (cache w') = Some ("GOOGLE, US", record_dict Clients.google) /\
  fst (get_whois_info IPv4.ip_address Clients.always_found c w')
  = Ok ("GOOGLE, US", record_dict Clients.google) /\
  lookups (snd (get_whois_info IPv4.ip_address Clients.always_found c w')) = lookups w' /\
  (length (cache empty_world) <= maxsize -> length (cache w') <= maxsize).
Proof.
  apply (get_whois_info_retention IPv4.ip_address Clients.always_found
           {| args := [VStr "8.8.8.8"]; kwds := [] |} empty_world
           ("GOOGLE, US", record_dict Clients.google)).
  - reflexivity.
  - vm_compute. lia.
Defined.

(** C5, as stated, fails: [8.8.8.8] is resolved and stored; after calls
    for 1024 other addresses it is no longer in the table, and the next
    call for it makes a second lookup. *)
Lemma get_whois_info_eviction_counterexample :
  let c := {| args := [VStr "8.8.8.8"]; kwds := [] |} in
  let w1 := snd (get_whois_info IPv4.ip_address Clients.always_found c empty_world) in
  let w2 := run IPv4.ip_address Clients.always_found Filler.calls w1 in
  let w3 := snd (get_whois_info IPv4.ip_address Clients.always_found c w2) in
  cache_get c (cache w1) = Some ("GOOGLE, US", record_dict Clients.google) /\
  cache_get c (cache w2) = None /\
  length (cache w2) = 1024 /\
  length (filter (fun a => a = VStr "8.8.8.8") (lookups w3)) = 2.
Proof. vm_compute. repeat split. Qed.

(** ** A call repeated *)

Section Repeat.

Variable ip_address : pyval -> option ip_obj.
Variable lookup_whois : nat -> pyval -> whois_outcome.

Local Abbreviation get_whois_info_body := (get_whois_info_body ip_address lookup_whois).
Local Abbreviation get_whois_info := (get_whois_info ip_address lookup_whois).
Local Abbreviation ip_type_of := (ip_type_of ip_address).
Local Abbreviation run := (run ip_address lookup_whois).

(** One call makes at most one lookup. *)
Lemma call_lookups_bound c (w : world) :
  length (lookups (snd (get_whois_info c w))) <= length (lookups w) + 1.
Proof.
  destruct (cache_get c (cache w)) as [r|] eqn:Hc.
  - rewrite (lru_hit ip_address lookup_whois c w r Hc). cbn [snd set_cache lookups]. lia.
  - rewrite (lru_miss ip_address lookup_whois c w Hc).
    assert (Hlen : length (lookups (snd (get_whois_info_body c w)))
                   <= length (lookups w) + 1).
    { destruct (address_of c) as [v|] eqn:Ha.
      - rewrite (body_address ip_address lookup_whois c v w Ha).
        destruct (ip_address v) as [a|]; [|cbn; lia].
        destruct (String.eqb _ _); [|cbn; lia].
        destruct (lookup_whois _ _); [destruct (shows_progress c)|];
          cbn; rewrite length_app; cbn; lia.
      - destruct (body_no_address ip_address lookup_whois c Ha) as [e He].
        rewrite He. cbn. lia. }
    destruct (get_whois_info_body c w) as [[r|e] w1]; exact Hlen.
Qed.

(** What a call returns when it reaches the WHOIS client. *)
Lemma public_miss c v (w : world) :
  address_of c = Some v -> ip_type_of v = Ok "Public" ->
  cache_get c (cache w) = None ->
  fst (get_whois_info c w) =
  match lookup_whois (length (lookups w)) v with
  | Found r0 => Ok (asn_description r0, record_dict r0)
  | Failed e => Ok ("Error during lookup of " +:+ pystr v +:+ " " +:+ type_repr e, [])
  end.
Proof.
  intros Ha Ht Hc.
  rewrite (lru_miss ip_address lookup_whois c w Hc),
    (body_address ip_address lookup_whois c v w Ha).
  rewrite (ip_type_of_category ip_address v (address_of_truthy c v Ha)) in Ht.
  unfold category in Ht. injection Ht as Ht.
  destruct (ip_address v) as [a|]; [|discriminate].
  rewrite Ht, String.eqb_refl.
  destruct (lookup_whois _ _); [destruct (shows_progress c)|]; reflexivity.
Qed.

(** C4 (as amended): a call that returned is answered from the table
    when it is made again after calls for fewer than [maxsize] = 1024
    distinct other keys: the repeated call returns the same tuple, makes
    no lookup and prints nothing.  In particular a call that reaches the
    WHOIS client returns, when the client returns a record, the summary
    and the record, and when the client raises one of its errors, the
    summary of the failure, and the repeated call returns the same: a
    failure is stored like a success.  One call makes at most one
    lookup, so that the call and its repetition at once make at most
    one. *)
Theorem get_whois_info_repeat c (w : world) cs :
  length (remove_dups (filter (fun c' => c' <> c) cs)) < maxsize ->
  let first := get_whois_info c w in
  let later := run cs (snd first) in
  let second := get_whois_info c later in
  (forall r, fst first = Ok r ->
     fst second = Ok r /\
     lookups (snd second) = lookups later /\
     stdout (snd second) = stdout later /\
     cache_get c (cache (snd first)) = Some r) /\
  (forall v, address_of c = Some v -> ip_type_of v = Ok "Public" ->
     cache_get c (cache w) = None ->
     (forall r0, lookup_whois (length (lookups w)) v = Found r0 ->
        fst first = Ok (asn_description r0, record_dict r0) /\
        fst second = fst first) /\
     (forall e, lookup_whois (length (lookups w)) v = Failed e ->
        fst first = Ok ("Error during lookup of " +:+ pystr v +:+ " " +:+ type_repr e, []) /\
        fst second = fst first)) /\
  length (lookups (snd first)) <= length (lookups w) + 1 /\
  (cs = [] -> forall r, fst first = Ok r ->
     length (lookups (snd second)) <= length (lookups w) + 1).
Proof.
  intros Hlen first later second.
  assert (HA : forall r, fst first = Ok r ->
             fst second = Ok r /\
             lookups (snd second) = lookups later /\
             stdout (snd second) = stdout later /\
             cache_get c (cache (snd first)) = Some r).
  { intros r Hr.
    pose proof (ok_then_hit ip_address lookup_whois c w r cs Hr Hlen) as Hhit.
    unfold second. fold first in Hhit. fold later in Hhit.
    rewrite (lru_hit ip_address lookup_whois c later r Hhit).
    cbn [fst snd set_cache lookups stdout]. repeat split.
    destruct (lru_stores ip_address lookup_whois c w r Hr) as [rest Hrest].
    unfold first. rewrite Hrest. apply cache_get_head. }
  split; [exact HA|]. split; [|split].
  - intros v Ha Ht Hc. pose proof (public_miss c v w Ha Ht Hc) as Hf.
    split.
    + intros r0 Hl. rewrite Hl in Hf. split; [exact Hf|].
      destruct (HA _ Hf) as (H2 & _). unfold first. now rewrite H2, Hf.
    + intros e Hl. rewrite Hl in Hf. split; [exact Hf|].
      destruct (HA _ Hf) as (H2 & _). unfold first. now rewrite H2, Hf.
  - apply call_lookups_bound.
  - intros Hcs r Hr. destruct (HA r Hr) as (_ & Hl & _).
    rewrite Hl. unfold later. rewrite Hcs. cbn [run]. apply call_lookups_bound.
Qed.

End Repeat.

Lemma get_whois_info_repeat_witness :
  let c := {| args := [VStr "8.8.8.8"]; kwds := [] |} in
  let cs := [ {| args := [VStr "1.1.1.1"]; kwds := [] |};
              {| args := [VStr "10.0.0.5"]; kwds := [] |};
              {| args := [VStr "1.1.1.1"]; kwds := [] |} ] in
  let w := empty_world in
  let first := get_whois_info IPv4.ip_address Clients.fails_once c w in
  let later := run IPv4.ip_address Clients.fails_once cs (snd first) in
  let second := get_whois_info IPv4.ip_address Clients.fails_once c later in
  (forall r, fst first = Ok r ->
     fst second = Ok r /\
     lookups (snd second) = lookups later /\
     stdout (snd second) = stdout later /\
     cache_get c (cache (snd first)) = Some r) /\
  (forall v, address_of c = Some v -> ip_type_of IPv4.ip_address v = Ok "Public" ->
     cache_get c (cache w) = None ->
     (forall r0, Clients.fails_once (length (lookups w)) v = Found r0 ->
        fst first = Ok (asn_description r0, record_dict r0) /\
        fst second = fst first) /\
     (forall e, Clients.fails_once (length (lookups w)) v = Failed e ->
        fst first = Ok ("Error during lookup of " +:+ pystr v +:+ " " +:+ type_repr e, []) /\
        fst second = fst first)) /\
  length (lookups (snd first)) <= length (lookups w) + 1 /\
  (cs = [] -> forall r, fst first = Ok r ->
     length (lookups (snd second)) <= length (lookups w) + 1).
Proof.
  apply (get_whois_info_repeat IPv4.ip_address Clients.fails_once
           {| args := [VStr "8.8.8.8"]; kwds := [] |} empty_world
           [ {| args := [VStr "1.1.1.1"]; kwds := [] |};
             {| args := [VStr "10.0.0.5"]; kwds := [] |};
             {| args := [VStr "1.1.1.1"]; kwds := [] |} ]).
  vm_compute. lia.
Defined.

(** The failure of the first lookup of [8.8.8.8] is returned again after
    three other calls, although the client would now succeed. *)
Example failure_is_kept :
  let c := {| args := [VStr "8.8.8.8"]; kwds := [] |} in
  let cs := [ {| args := [VStr "1.1.1.1"]; kwds := [] |};
              {| args := [VStr "10.0.0.5"]; kwds := [] |};
              {| args := [VStr "1.1.1.1"]; kwds := [] |} ] in
  let first := get_whois_info IPv4.ip_address Clients.fails_once c empty_world in
  let later := run IPv4.ip_address Clients.fails_once cs (snd first) in
  let second := get_whois_info IPv4.ip_address Clients.fails_once c later in
  fst second
  = Ok ("Error during lookup of 8.8.8.8 <class 'ipwhois.exceptions.HostLookupError'>", [])
  /\ lookups (snd second) = [VStr "8.8.8.8"; VStr "1.1.1.1"].
Proof. split; reflexivity. Qed.

(** C4, as stated, fails: the first lookup of [8.8.8.8] fails and the
    summary of the failure is stored; after calls for 1024 other
    addresses the entry is gone, the same call makes a second lookup and
    returns another result. *)
Lemma get_whois_info_repeat_counterexample :
  let c := {| args := [VStr "8.8.8.8"]; kwds := [] |} in
  let first := get_whois_info IPv4.ip_address Clients.fails_once c empty_world in
  let later := run IPv4.ip_address Clients.fails_once Filler.calls (snd first) in
  let second := get_whois_info IPv4.ip_address Clients.fails_once c later in
  fst first
  = Ok ("Error during lookup of 8.8.8.8 <class 'ipwhois.exceptions.HostLookupError'>", []) /\
  fst second = Ok ("GOOGLE, US", record_dict Clients.google) /\
  lookups (snd second) = lookups later ++ [VStr "8.8.8.8"] /\
  length (filter (fun a => a = VStr "8.8.8.8") (lookups (snd second))) = 2.
Proof. vm_compute. repeat split. Qed.

(** ** get_whois_df *)

Section Enrich.

Variable ip_address : pyval -> option ip_obj.
Variable lookup_whois : nat -> pyval -> whois_outcome.

Local Abbreviation get_whois_info := (get_whois_info ip_address lookup_whois).
Local Abbreviation whois_of_row := (whois_of_row ip_address lookup_whois).
Local Abbreviation get_whois_df := (get_whois_df ip_address lookup_whois).

Lemma get_whois_info_frames c (w : world) :
  frames (snd (get_whois_info c w)) = frames w.
Proof.
  destruct (cache_get c (cache w)) as [v|] eqn:Hc.
  - now rewrite (lru_hit ip_address lookup_whois c w v Hc).
  - rewrite (lru_miss ip_address lookup_whois c w Hc).
    pose proof (body_frames ip_address lookup_whois c w) as Hf.
    destruct (get_whois_info_body ip_address lookup_whois c w) as [[v|e] w1];
      exact Hf.
Qed.

Lemma whois_of_row_frames cols ip_column sp x (w : world) :
  frames (snd (whois_of_row cols ip_column sp x w)) = frames w.
Proof.
  unfold whois_of_row, bind, lift.
  destruct (row_get cols x ip_column) as [[v|l|d]|e]; try reflexivity.
  apply get_whois_info_frames.
Qed.

Lemma apply_rows_frames {A} (f : list cell -> M A) xs :
  (forall x w, frames (snd (f x w)) = frames w) ->
  forall w, frames (snd (apply_rows f xs w)) = frames w.
Proof.
  intros Hf. induction xs as [|x xs IH]; intros w; [reflexivity|].
  cbn [apply_rows]. unfold bind at 1.
  pose proof (Hf x w) as H1. destruct (f x w) as [[a|e] w1]; [|exact H1].
  unfold bind at 1. pose proof (IH w1) as H2.
  destruct (apply_rows f xs w1) as [[r|e] w2]; cbn in *; congruence.
Qed.

Lemma then_frames {A B} (f : list cell -> M A) (g : A -> B) :
  (forall x w, frames (snd (f x w)) = frames w) ->
  forall x w, frames (snd ((let* r := f x in ret (g r)) w)) = frames w.
Proof.
  intros Hf x w. unfold bind, ret. pose proof (Hf x w) as H.
  destruct (f x w) as [[a|e] w1]; exact H.
Qed.

(** The objects that exist before the call are the same after it, and a
    reference returned is a new one. *)
Lemma get_whois_df_frames data ip_column all_columns asn_col whois_col sp (w : world) :
  let res := get_whois_df data ip_column all_columns asn_col whois_col sp w in
  take (length (frames w)) (frames (snd res)) = frames w /\
  (forall r, fst res = Ok r -> r = length (frames w) /\ r < length (frames (snd res))).
Proof.
  intros res.
  assert (Hres : res = get_whois_df data ip_column all_columns asn_col whois_col sp w)
    by reflexivity.
  clearbody res. unfold get_whois_df in Hres. destruct all_columns.
  - unfold bind at 1, load in Hres. unfold bind at 1 in Hres.
    match type of Hres with context [apply_rows ?f ?xs w] =>
      pose proof (apply_rows_frames f xs
                    (then_frames _ snd (whois_of_row_frames _ ip_column sp)) w) as Hf;
      destruct (apply_rows f xs w) as [[rs|e] w1]
    end; cbn [snd] in Hf; subst res.
    + unfold alloc. cbn [fst snd set_frames frames]. rewrite Hf. split.
      * apply take_app_length.
      * intros r [= <-]. rewrite length_app. cbn [length]. lia.
    + cbn [fst snd]. rewrite Hf. split; [now apply take_ge|discriminate].
  - unfold bind at 1, load in Hres. unfold bind at 1, alloc in Hres.
    set (n := length (frames w)) in *.
    set (w0 := set_frames (frames w ++ [nth data (frames w) empty_frame]) w) in *.
    assert (H0 : frames w0 = frames w ++ [nth data (frames w) empty_frame])
      by reflexivity.
    destruct whois_col as [whois_col|].
    + unfold bind at 1, load in Hres. unfold bind at 1 in Hres.
      match type of Hres with context [apply_rows ?f ?xs w0] =>
        pose proof (apply_rows_frames f xs (whois_of_row_frames _ ip_column sp) w0)
          as Hf;
        destruct (apply_rows f xs w0) as [[rs|e] w1]
      end; cbn [snd] in Hf; subst res.
      * unfold bind, load, store, ret. cbn [fst snd set_frames frames].
        rewrite list_insert_insert_eq, Hf, H0. split.
        -- rewrite take_insert_ge by (unfold n; lia). apply take_app_length.
        -- intros r [= <-]. split; [reflexivity|].
           rewrite length_insert, length_app. cbn [length]. unfold n. lia.
      * cbn [fst snd]. rewrite Hf, H0. split; [apply take_app_length|discriminate].
    + unfold bind at 1, load in Hres. unfold bind at 1 in Hres.
      match type of Hres with context [apply_rows ?f ?xs w0] =>
        pose proof (apply_rows_frames f xs
                      (then_frames _ fst (whois_of_row_frames _ ip_column sp)) w0) as Hf;
        destruct (apply_rows f xs w0) as [[rs|e] w1]
      end; cbn [snd] in Hf; subst res.
      * unfold bind, load, store, ret. cbn [fst snd set_frames frames].
        rewrite Hf, H0. split.
        -- rewrite take_insert_ge by (unfold n; lia). apply take_app_length.
        -- intros r [= <-]. split; [reflexivity|].
           rewrite length_insert, length_app. cbn [length]. unfold n. lia.
      * cbn [fst snd]. rewrite Hf, H0. split; [apply take_app_length|discriminate].
Qed.

Lemma apply_rows_length {A} (f : list cell -> M A) xs : forall (w : world) rs,
  fst (apply_rows f xs w) = Ok rs -> length rs = length xs.
Proof.
  induction xs as [|x xs IH]; intros w rs.
  - intros [= <-]. reflexivity.
  - cbn [apply_rows]. unfold bind at 1.
    destruct (f x w) as [[a|e] w1]; [|discriminate].
    unfold bind at 1. specialize (IH w1).
    destruct (apply_rows f xs w1) as [[r|e] w2]; [|discriminate].
    intros [= <-]. cbn [length]. f_equal. now apply IH.
Qed.

(** With [all_columns], the DataFrame returned is the one built from the
    dicts of the rows, one row for each row of the input, and from
    nothing else. *)
Lemma get_whois_df_expand_shape data ip_column asn_col whois_col sp (w : world) r :
  let res := get_whois_df data ip_column true asn_col whois_col sp w in
  fst res = Ok r ->
  exists ds,
    nth r (frames (snd res)) empty_frame = expand_dicts ds /\
    length ds = length (rows (nth data (frames w) empty_frame)).
Proof.
  intros res.
  assert (Hres : res = get_whois_df data ip_column true asn_col whois_col sp w)
    by reflexivity.
  clearbody res. unfold get_whois_df in Hres.
  unfold bind at 1, load in Hres. unfold bind at 1 in Hres.
  match type of Hres with context [apply_rows ?f ?xs w] =>
    pose proof (apply_rows_frames f xs
                  (then_frames _ snd (whois_of_row_frames _ ip_column sp)) w) as Hf;
    pose proof (apply_rows_length f xs w) as Hl;
    destruct (apply_rows f xs w) as [[rs|e] w1]
  end; cbn [fst snd] in *; subst res; [|discriminate].
  unfold alloc. cbn [fst snd set_frames frames]. intros [= Hr]. subst r.
  exists rs. split; [|now apply Hl].
  rewrite nth_lookup, lookup_app_r by lia. rewrite Nat.sub_diag. reflexivity.
Qed.

(** C7 (as amended): in every mode, summary-only mode included,
    [get_whois_df] leaves the caller's DataFrame, and every other
    DataFrame that exists, as it was, and what it returns is a new
    DataFrame. *)
Theorem get_whois_df_copies data ip_column all_columns asn_col whois_col sp (w : world) :
  data < length (frames w) ->
  let res := get_whois_df data ip_column all_columns asn_col whois_col sp w in
  nth data (frames (snd res)) empty_frame = nth data (frames w) empty_frame /\
  take (length (frames w)) (frames (snd res)) = frames w /\
  (forall r, fst res = Ok r ->
     r <> data /\ r = length (frames w) /\ r < length (frames (snd res))).
Proof.
  intros Hd res.
  destruct (get_whois_df_frames data ip_column all_columns asn_col whois_col sp w)
    as [Ht Hr]. fold res in Ht, Hr. repeat split.
  - transitivity (nth data (take (length (frames w)) (frames (snd res))) empty_frame);
      [|now rewrite Ht].
    rewrite !nth_lookup, lookup_take_lt by exact Hd. reflexivity.
  - exact Ht.
  - destruct (Hr r H). lia.
  - now destruct (Hr r H).
  - now destruct (Hr r H).
Qed.

End Enrich.

Lemma get_whois_df_copies_witness :
  let res := get_whois_df IPv4.ip_address Clients.always_found
               0 "ip" false "AsnDescription" (Some "WhoIsData") false
               (Tables.holding Tables.hosts) in
  nth 0 (frames (snd res)) empty_frame
  = nth 0 (frames (Tables.holding Tables.hosts)) empty_frame /\
  take (length (frames (Tables.holding Tables.hosts))) (frames (snd res))
  = frames (Tables.holding Tables.hosts) /\
  (forall r, fst res = Ok r ->
     r <> 0 /\ r = length (frames (Tables.holding Tables.hosts)) /\
     r < length (frames (snd res))).
Proof.
  apply (get_whois_df_copies IPv4.ip_address Clients.always_found
           0 "ip" false "AsnDescription" (Some "WhoIsData") false
           (Tables.holding Tables.hosts)).
  cbn. lia.
Defined.

(** C7, as stated, fails: in summary-only mode (no [whois_col],
    [all_columns] false) the caller's DataFrame, at reference 0, is the
    same after the call; the new column is in the copy, at reference
    1. *)
Lemma get_whois_df_summary_counterexample :
  let w := Tables.holding Tables.hosts in
  let res := get_whois_df IPv4.ip_address Clients.always_found
               0 "ip" false "AsnDescription" None false w in
  fst res = Ok 1 /\
  nth 0 (frames (snd res)) empty_frame = Tables.hosts /\
  columns (nth 1 (frames (snd res)) empty_frame) = ["ip"; "AsnDescription"].
Proof. vm_compute. repeat split. Qed.

(** C6: with [all_columns], the DataFrame returned for a table with
    columns [ip] and [note] has the fields of the WHOIS record as its
    columns and neither [ip] nor [note]. *)
Theorem get_whois_df_expand_drops_input :
  let w := Tables.holding Tables.dns in
  let res := get_whois_df IPv4.ip_address Clients.always_found
               0 "ip" true "AsnDescription" None false w in
  fst res = Ok 1 /\
  nth 1 (frames (snd res)) empty_frame
  = {| columns := ["asn_description"; "asn"; "asn_country_code"];
       rows := [[CVal (VStr "GOOGLE, US"); CVal (VStr "15169"); CVal (VStr "US")]] |} /\
  ~ In "ip" (columns (nth 1 (frames (snd res)) empty_frame)).
Proof.
  vm_compute. repeat split. intros [H|[H|[H|[]]]]; discriminate.
Qed.

(** The two other modes keep the columns of the input in what they
    return. *)
Example get_whois_df_summary_keeps_input :
  let w := Tables.holding Tables.dns in
  let res := get_whois_df IPv4.ip_address Clients.always_found
               0 "ip" false "AsnDescription" (Some "WhoIsData") false w in
  columns (nth 1 (frames (snd res)) empty_frame)
  = ["ip"; "note"; "AsnDescription"; "WhoIsData"].
Proof. reflexivity. Qed.

(** ** Missing input, and convert_to_ip_entities *)

Section Entities.

Variable ip_address : pyval -> option ip_obj.
Variable lookup_whois : nat -> pyval -> whois_outcome.
Variable arg_to_list : string -> list string.
Variable geo_location : pyval -> option string.

Local Abbreviation get_ip_type := (get_ip_type ip_address).
Local Abbreviation get_whois_info := (get_whois_info ip_address lookup_whois).
Local Abbreviation cache_sound := (cache_sound ip_address lookup_whois).
Local Abbreviation loop := (entities_loop geo_location).
Local Abbreviation convert := (convert_to_ip_entities arg_to_list geo_location).

Lemma lookup_all_returns es (w : world) : exists es', fst (lookup_all geo_location es w) = Ok es'.
Proof.
  revert w. induction es as [|e es IH]; intros w; [now exists []|].
  cbn [lookup_all]. unfold bind at 1, lookup_ip. unfold bind at 1.
  destruct (IH (add_geo_lookup (Address e) w)) as [es' H].
  destruct (lookup_all geo_location es _) as [[r|x] w1]; cbn in H; [|discriminate].
  eexists. reflexivity.
Qed.

Lemma batch_set_no_value_error addr msg : batch_set addr <> Raise (ValueError msg).
Proof.
  destruct addr as [[| |s|]| |]; cbn; try discriminate.
  destruct (contains_char _ _); discriminate.
Qed.

Lemma entities_loop_no_value_error geo addrs msg : forall ents ips (w : world),
  fst (loop geo addrs ents ips w) <> Raise (ValueError msg).
Proof.
  induction addrs as [|addr addrs IH]; intros ents ips w; [discriminate|].
  cbn [entities_loop]. unfold bind at 1, lift.
  pose proof (batch_set_no_value_error addr msg) as Hb.
  destruct (batch_set addr) as [ip_list|e]; [|cbn; congruence].
  unfold bind at 1. destruct geo.
  - destruct (lookup_all_returns
                (ents ++ map (fun ip => {| Address := ip; Location := None |})
                           (list_difference ip_list ips)) w) as [es' H].
    destruct (lookup_all geo_location _ w) as [[r|x] w1]; cbn in H; [|discriminate].
    apply IH.
  - apply IH.
Qed.

(** C8 (as amended): [get_ip_type] and [get_whois_info] raise
    [ValueError] for an address that is absent or empty, and change
    nothing; [convert_to_ip_entities] raises its [ValueError] exactly
    when no address string is given and the table or the column name is
    not given either; when the string and the table with its column are
    both given it does not raise for that and works from the string. *)
Theorem missing_input_raises :
  (forall ip ip_str (w : world),
     truthy (py_or ip ip_str) = false ->
     get_ip_type ip ip_str w = (Raise missing_address, w)) /\
  (forall c ip sp kw (w : world),
     cache_sound w -> bind_args c = Ok (ip, sp, kw) ->
     truthy (py_or ip (default VNone (kw_get kw "ip_str"))) = false ->
     get_whois_info c w = (Raise missing_address, w)) /\
  (forall ip_str data ip_col geo (w : world),
     fst (convert ip_str data ip_col geo w) = Raise missing_source
     <-> given ip_str = None /\ (data = None \/ given ip_col = None)) /\
  (forall ip_str s data ip_col geo (w : world),
     given ip_str = Some s ->
     convert ip_str data ip_col geo w
     = convert ip_str None None geo w).
Proof.
  split; [|split; [|split]].
  - intros ip ip_str w H. now apply get_ip_type_missing.
  - intros c ip sp kw w Hs Hb Ht.
    assert (Hbody : forall w0, get_whois_info_body ip_address lookup_whois c w0
                               = (Raise missing_address, w0)).
    { intros w0. rewrite body_unfold, Hb. cbn zeta. now rewrite Ht. }
    destruct (cache_get c (cache w)) as [v|] eqn:Hc.
    + destruct (Hs c v Hc) as [w0 H0]. rewrite Hbody in H0. discriminate.
    + now rewrite (lru_miss ip_address lookup_whois c w Hc), Hbody.
  - intros ip_str data ip_col geo w.
    unfold convert_to_ip_entities. unfold bind at 1. split.
    + destruct (given ip_str) as [s|].
      * unfold ret. intros H. now apply entities_loop_no_value_error in H.
      * destruct data as [d|]; [|auto]. destruct (given ip_col) as [col|]; [|auto].
        unfold lift. intros H. exfalso.
        destruct (column_values d col) as [vals|e] eqn:Hv.
        -- now apply entities_loop_no_value_error in H.
        -- unfold column_values in Hv. destruct (col_index _ _); [discriminate|].
           injection Hv as <-. discriminate H.
    + intros [Hs Hd]. rewrite Hs. destruct Hd as [->|Hc]; [reflexivity|].
      destruct data; [|reflexivity]. now rewrite Hc.
  - intros ip_str s data ip_col geo w Hs.
    unfold convert_to_ip_entities. now rewrite Hs.
Qed.

Lemma lookup_all_addresses es (w : world) es' :
  fst (lookup_all geo_location es w) = Ok es' -> addresses es' = addresses es.
Proof.
  revert w es'. induction es as [|e es IH]; intros w es'.
  - intros [= <-]. reflexivity.
  - cbn [lookup_all]. unfold bind at 1, lookup_ip. unfold bind at 1.
    specialize (IH (add_geo_lookup (Address e) w)).
    destruct (lookup_all geo_location es _) as [[r|x] w1]; cbn; [|discriminate].
    intros [= <-]. cbn. f_equal. now apply IH.
Qed.

Lemma batch_set_nodup addr ip_list : batch_set addr = Ok ip_list -> NoDup ip_list.
Proof.
  destruct addr as [[| |s|]| |]; cbn; try discriminate;
    try (intros [= <-]; first [apply NoDup_remove_dups | apply NoDup_singleton]).
  destruct (contains_char _ _); intros [= <-];
    [apply NoDup_remove_dups | apply NoDup_singleton].
Qed.

Lemma entities_loop_distinct geo addrs : forall ents ips (w : world) ents',
  addresses ents = ips -> NoDup ips ->
  fst (loop geo addrs ents ips w) = Ok ents' -> NoDup (addresses ents').
Proof.
  induction addrs as [|addr addrs IH]; intros ents ips w ents' Ha Hnd.
  - intros [= <-]. now rewrite Ha.
  - cbn [entities_loop]. unfold bind at 1, lift.
    destruct (batch_set addr) as [ip_list|e] eqn:Hb; [|discriminate].
    unfold bind at 1.
    set (new := list_difference ip_list ips).
    assert (Ha' : addresses (ents ++ map (fun ip => {| Address := ip; Location := None |}) new)
                  = ips ++ new).
    { unfold addresses. rewrite map_app, map_map. cbn. rewrite map_id.
      unfold addresses in Ha. now rewrite Ha. }
    assert (Hnd' : NoDup (ips ++ new)).
    { apply NoDup_app. repeat split; [exact Hnd| |].
      - intros x Hx Hn. apply list_elem_of_difference in Hn. tauto.
      - apply NoDup_list_difference. now apply (batch_set_nodup addr). }
    destruct geo.
    + pose proof (lookup_all_addresses
                    (ents ++ map (fun ip => {| Address := ip; Location := None |}) new) w)
        as Hl.
      destruct (lookup_all geo_location _ w) as [[r|x] w1]; cbn [fst] in Hl;
        [|discriminate].
      apply IH; [|exact Hnd']. rewrite (Hl r eq_refl). exact Ha'.
    + apply IH; [exact Ha'|exact Hnd'].
Qed.

(** The entities returned have distinct addresses: each address gives
    one entity. *)
Lemma convert_to_ip_entities_distinct ip_str data ip_col geo (w : world) ents :
  fst (convert ip_str data ip_col geo w) = Ok ents -> NoDup (addresses ents).
Proof.
  unfold convert_to_ip_entities. unfold bind at 1.
  destruct (given ip_str) as [s|].
  - unfold ret. apply entities_loop_distinct; [reflexivity|constructor].
  - destruct data as [d|]; [|discriminate].
    destruct (given ip_col) as [col|]; [|discriminate].
    unfold lift. destruct (column_values d col); [|discriminate].
    apply entities_loop_distinct; [reflexivity|constructor].
Qed.

End Entities.

Lemma missing_input_raises_witness :
  get_ip_type IPv4.ip_address VNone (VStr EmptyString) empty_world
  = (Raise missing_address, empty_world) /\
  get_whois_info IPv4.ip_address Clients.always_found
    {| args := []; kwds := [("show_progress", VBool true)] |} empty_world
  = (Raise missing_address, empty_world) /\
  fst (convert_to_ip_entities Clients.one_item Clients.no_location
         (Some EmptyString) (Some Tables.hosts) None true empty_world)
  = Raise missing_source.
Proof.
  destruct (missing_input_raises IPv4.ip_address Clients.always_found
              Clients.one_item Clients.no_location) as (H1 & H2 & H3 & _).
  split; [|split].
  - apply H1. reflexivity.
  - apply (H2 _ VNone (VBool true) []).
    + now apply cache_sound_empty.
    + reflexivity.
    + reflexivity.
  - apply H3. split; [reflexivity|right; reflexivity].
Defined.

(** C8, as stated, fails: with the address string and the table with
    its column both given, [convert_to_ip_entities] raises nothing and
    returns the entity of the string. *)
Lemma convert_to_ip_entities_both_counterexample :
  fst (convert_to_ip_entities Clients.one_item Clients.no_location
         (Some "1.1.1.1") (Some Tables.hosts) (Some "ip") false empty_world)
  = Ok [ {| Address := VStr "1.1.1.1"; Location := None |} ].
Proof. reflexivity. Qed.

(** C9: for a column of two addresses, with geolocation, the client is
    called three times for the two entities: the first entity is looked
    up again when the second address is processed. *)
Theorem convert_to_ip_entities_repeats_lookups :
  let res := convert_to_ip_entities Clients.one_item Clients.no_location
               None (Some Tables.hosts) (Some "ip") true empty_world in
  fst res = Ok [ {| Address := VStr "10.0.0.5"; Location := None |};
                 {| Address := VStr "8.8.8.8"; Location := None |} ] /\
  geo_lookups (snd res) = [VStr "10.0.0.5"; VStr "10.0.0.5"; VStr "8.8.8.8"].
Proof. split; reflexivity. Qed.

(** * Further properties *)

(** ** get_ip_type: range and alias *)

Section Classifier.

Variable ip_address : pyval -> option ip_obj.

Local Abbreviation get_ip_type := (get_ip_type ip_address).

(** X1: whatever the value, [get_ip_type] either raises the
    [ValueError] for a missing address, and then the value is absent or
    empty, or returns one of the seven category strings. *)
Theorem get_ip_type_range ip ip_str (w : world) :
  match fst (get_ip_type ip ip_str w) with
  | Ok t =>
      truthy (py_or ip ip_str) = true /\
      In t ["Multicast"; "Public"; "Loopback"; "Link Local"; "Unspecified";
            "Private"; "Reserved"]
  | Raise e => e = missing_address /\ truthy (py_or ip ip_str) = false
  end.
Proof.
  destruct (truthy (py_or ip ip_str)) eqn:Ht.
  - destruct (ip_address (py_or ip ip_str)) as [a|] eqn:Hp.
    + rewrite (get_ip_type_parsed ip_address ip ip_str a w Ht Hp). cbn [fst].
      split; [reflexivity|]. unfold classify_spec, scope_priority. cbn [find fst snd].
      destruct (is_multicast a); [cbn; tauto|].
      destruct (is_global a); [cbn; tauto|].
      destruct (is_loopback a); [cbn; tauto|].
      destruct (is_link_local a); [cbn; tauto|].
      destruct (is_unspecified a); [cbn; tauto|].
      destruct (is_private a); [cbn; tauto|].
      destruct (is_reserved a); cbn; tauto.
    + rewrite (get_ip_type_unparsed ip_address ip ip_str w Ht Hp). cbn. tauto.
  - rewrite (get_ip_type_missing ip_address ip ip_str w Ht). cbn. auto.
Qed.

(** X2: [ip_str] is an alias of [ip]: an address passed as [ip_str]
    alone is treated as the same address passed as [ip], and when [ip]
    is given and not empty, [ip_str] is ignored. *)
Theorem get_ip_type_alias v ip_str (w : world) :
  get_ip_type VNone v w = get_ip_type v VNone w /\
  (truthy v = true -> get_ip_type v ip_str w = get_ip_type v VNone w).
Proof.
  split.
  - unfold get_ip_type, py_or. cbn [truthy].
    destruct (truthy v) eqn:Ht; cbn iota; rewrite ?Ht; reflexivity.
  - intros Ht. unfold get_ip_type, py_or. now rewrite Ht.
Qed.

End Classifier.

(** ** get_whois_info: results, effects and the table *)

Section ResolverMore.

Variable ip_address : pyval -> option ip_obj.
Variable lookup_whois : nat -> pyval -> whois_outcome.

Local Abbreviation get_whois_info_body := (get_whois_info_body ip_address lookup_whois).
Local Abbreviation get_whois_info := (get_whois_info ip_address lookup_whois).
Local Abbreviation ip_type_of := (ip_type_of ip_address).
Local Abbreviation cache_sound := (cache_sound ip_address lookup_whois).
Local Abbreviation run := (run ip_address lookup_whois).

Implicit Types (c k : call) (w : world).

(** On a miss the wrapper returns what the function returns and changes
    the world as the function does, but for the table. *)
Lemma lru_miss_fields c w :
  cache_get c (cache w) = None ->
  fst (get_whois_info c w) = fst (get_whois_info_body c w) /\
  lookups (snd (get_whois_info c w)) = lookups (snd (get_whois_info_body c w)) /\
  stdout (snd (get_whois_info c w)) = stdout (snd (get_whois_info_body c w)).
Proof.
  intros Hc. rewrite (lru_miss ip_address lookup_whois c w Hc).
  destruct (get_whois_info_body c w) as [[r|e] w1]; repeat split.
Qed.

Lemma public_category v a :
  truthy v = true -> ip_address v = Some a ->
  (String.eqb (classify_spec a) "Public" = true <-> ip_type_of v = Ok "Public").
Proof.
  intros Ht Hp. rewrite (ip_type_of_category ip_address v Ht).
  unfold category. rewrite Hp, String.eqb_eq. split; congruence.
Qed.

Lemma unparsed_not_public v :
  truthy v = true -> ip_address v = None -> ip_type_of v <> Ok "Public".
Proof.
  intros Ht Hp. rewrite (ip_type_of_category ip_address v Ht).
  unfold category. rewrite Hp. discriminate.
Qed.

(** X3: when a call is not answered from the table, its address is
    [Public] and the client returns a record, [get_whois_info] returns
    the [asn_description] of the record with the record, has made
    exactly this one lookup, and the result is in the table. *)
Theorem get_whois_info_lookup_success c v r w :
  address_of c = Some v -> ip_type_of v = Ok "Public" ->
  cache_get c (cache w) = None ->
  lookup_whois (length (lookups w)) v = Found r ->
  fst (get_whois_info c w) = Ok (asn_description r, record_dict r) /\
  lookups (snd (get_whois_info c w)) = lookups w ++ [v] /\
  cache_get c (cache (snd (get_whois_info c w)))
  = Some (asn_description r, record_dict r).
Proof.
  intros Ha Ht Hc Hl.
  pose proof (address_of_truthy c v Ha) as Hv.
  rewrite (lru_miss ip_address lookup_whois c w Hc),
    (body_address ip_address lookup_whois c v w Ha).
  destruct (ip_address v) as [a|] eqn:Hp;
    [|now apply unparsed_not_public in Ht].
  apply (public_category v a Hv Hp) in Ht. rewrite Ht, Hl.
  cbn [fst snd set_cache cache lookups]. repeat split.
  - destruct (shows_progress c); reflexivity.
  - apply cache_get_put_head.
Qed.

(** X4: a call makes at most one lookup, and only for its own address,
    only when that address is [Public] and the call is not answered
    from the table. *)
Theorem get_whois_info_lookup_trace c w :
  lookups (snd (get_whois_info c w)) = lookups w \/
  exists v,
    cache_get c (cache w) = None /\ address_of c = Some v /\
    ip_type_of v = Ok "Public" /\
    lookups (snd (get_whois_info c w)) = lookups w ++ [v].
Proof.
  destruct (cache_get c (cache w)) as [r|] eqn:Hc.
  { left. now rewrite (lru_hit ip_address lookup_whois c w r Hc). }
  destruct (lru_miss_fields c w Hc) as (_ & -> & _).
  destruct (address_of c) as [v|] eqn:Ha.
  - pose proof (address_of_truthy c v Ha) as Hv.
    rewrite (body_address ip_address lookup_whois c v w Ha).
    destruct (ip_address v) as [a|] eqn:Hp; [|now left].
    destruct (String.eqb (classify_spec a) "Public") eqn:Hpub; [|now left].
    right. exists v. repeat split; [now apply (public_category v a Hv Hp)|].
    destruct (lookup_whois _ _); [destruct (shows_progress c)|]; reflexivity.
  - left. destruct (body_no_address ip_address lookup_whois c Ha) as [e He].
    now rewrite He.
Qed.

(** X5: a call that does not ask for progress prints no marker: it
    prints nothing, or, when it is not answered from the table and its
    address does not parse, the diagnostic of [get_ip_type]. *)
Theorem get_whois_info_quiet c w :
  shows_progress c = false ->
  (stdout (snd (get_whois_info c w)) = stdout w \/
   exists v, address_of c = Some v /\ ip_address v = None /\
             stdout (snd (get_whois_info c w)) = stdout w ++ [diagnostic v]) /\
  markers (stdout (snd (get_whois_info c w))) = markers (stdout w).
Proof.
  intros Hq.
  assert (H : stdout (snd (get_whois_info c w)) = stdout w \/
              exists v, address_of c = Some v /\ ip_address v = None /\
                stdout (snd (get_whois_info c w)) = stdout w ++ [diagnostic v]).
  { destruct (cache_get c (cache w)) as [r|] eqn:Hc.
    { left. now rewrite (lru_hit ip_address lookup_whois c w r Hc). }
    destruct (lru_miss_fields c w Hc) as (_ & _ & ->).
    destruct (address_of c) as [v|] eqn:Ha.
    - rewrite (body_address ip_address lookup_whois c v w Ha), Hq.
      destruct (ip_address v) as [a|] eqn:Hp.
      + left. destruct (String.eqb _ _); [|reflexivity].
        destruct (lookup_whois _ _); reflexivity.
      + right. exists v. auto.
    - left. destruct (body_no_address ip_address lookup_whois c Ha) as [e He].
      now rewrite He. }
  split; [exact H|]. destruct H as [->|(v & _ & _ & ->)]; [reflexivity|].
  unfold markers. rewrite filter_app, length_app. cbn [filter list_filter].
  rewrite decide_False; [cbn; lia|].
  unfold diagnostic, newline. intros E. apply (f_equal String.length) in E.
  rewrite !string_length_app in E. cbn in E. lia.
Qed.

(** X6: for an address that does not parse, the first call prints the
    diagnostic, makes no lookup and returns the summary for
    [Unspecified]; the call repeated returns the same and prints
    nothing. *)
Theorem get_whois_info_invalid_address c v w :
  address_of c = Some v -> ip_address v = None ->
  cache_get c (cache w) = None ->
  let first := get_whois_info c w in
  let second := get_whois_info c (snd first) in
  fst first = Ok ("No ASN Information for IP type: " +:+ "Unspecified", []) /\
  stdout (snd first) = stdout w ++ [diagnostic v] /\
  lookups (snd first) = lookups w /\
  fst second = fst first /\
  stdout (snd second) = stdout (snd first).
Proof.
  intros Ha Hp Hc. cbn zeta.
  rewrite (lru_miss ip_address lookup_whois c w Hc),
    (body_address ip_address lookup_whois c v w Ha), Hp.
  cbn [fst snd set_cache stdout lookups add_output].
  erewrite (lru_hit ip_address lookup_whois c) by apply cache_get_put_head.
  repeat split.
Qed.

(** X7: a call leaves the entries of the other keys as they are, or
    evicts one: what the table holds for another key after the call, it
    held before. *)
Theorem get_whois_info_other_keys c k v w :
  k <> c ->
  cache_get k (cache (snd (get_whois_info c w))) = Some v ->
  cache_get k (cache w) = Some v.
Proof.
  intros Hne. destruct (cache_get c (cache w)) as [r|] eqn:Hc.
  - rewrite (lru_hit ip_address lookup_whois c w r Hc).
    cbn [snd set_cache cache cache_get].
    rewrite decide_False by congruence.
    now rewrite cache_get_remove_ne by exact Hne.
  - rewrite (lru_miss ip_address lookup_whois c w Hc).
    pose proof (body_cache ip_address lookup_whois c w) as Hbc.
    destruct (get_whois_info_body c w) as [[r|e] w1]; cbn [snd] in Hbc |- *.
    + cbn [set_cache cache]. intros [[-> _]|H]%cache_get_put; [congruence|exact H].
    + now rewrite Hbc.
Qed.

(** X8: calls with the same address and the same progress flag, however
    the arguments are passed, get the same result with the same lookups
    and the same output when none of them is answered from the table. *)
Theorem get_whois_info_same_address c1 c2 v w :
  address_of c1 = Some v -> address_of c2 = Some v ->
  shows_progress c1 = shows_progress c2 ->
  cache_get c1 (cache w) = None -> cache_get c2 (cache w) = None ->
  fst (get_whois_info c1 w) = fst (get_whois_info c2 w) /\
  lookups (snd (get_whois_info c1 w)) = lookups (snd (get_whois_info c2 w)) /\
  stdout (snd (get_whois_info c1 w)) = stdout (snd (get_whois_info c2 w)).
Proof.
  intros Ha1 Ha2 Hs Hc1 Hc2.
  destruct (lru_miss_fields c1 w Hc1) as (-> & -> & ->).
  destruct (lru_miss_fields c2 w Hc2) as (-> & -> & ->).
  rewrite (body_address ip_address lookup_whois c1 v w Ha1),
    (body_address ip_address lookup_whois c2 v w Ha2), Hs.
  repeat split.
Qed.

(** The exception of a call that names no address. *)
Lemma body_no_address_kind c :
  address_of c = None ->
  (forall w, get_whois_info_body c w = (Raise missing_address, w)) \/
  exists msg, forall w, get_whois_info_body c w = (Raise (TypeError msg), w).
Proof.
  unfold address_of. intros H.
  destruct (bind_args c) as [[[ip sp] kw]|e] eqn:Hb.
  - cbn zeta in H. destruct (truthy _) eqn:Ht; [discriminate|].
    left. intros w. rewrite (body_unfold ip_address lookup_whois), Hb. cbn zeta.
    rewrite Ht. reflexivity.
  - right. assert (He : exists msg, e = TypeError msg).
    { unfold bind_args in Hb.
      destruct (args c) as [|a [|b [|x l]]];
        repeat (destruct (kw_get _ _)); try discriminate;
        injection Hb as <-; eauto. }
    destruct He as [msg ->]. exists msg. intros w.
    rewrite (body_unfold ip_address lookup_whois), Hb. reflexivity.
Qed.

(** X9: a call that names no address (its arguments do not bind, or the
    address is absent or empty) raises, the [ValueError] of line 187 or
    a [TypeError], and leaves everything as it was: no entry, no lookup,
    no output.  A call that names an address and is answered from the
    table, or whose address is not [Public], returns and makes no
    lookup: it does not reach the WHOIS client. *)
Theorem get_whois_info_raises c w :
  cache_sound w ->
  (address_of c = None ->
     get_whois_info c w = (Raise missing_address, w) \/
     exists msg, get_whois_info c w = (Raise (TypeError msg), w)) /\
  (forall v, address_of c = Some v ->
     cache_get c (cache w) <> None \/ ip_type_of v <> Ok "Public" ->
     exists r, fst (get_whois_info c w) = Ok r /\
               lookups (snd (get_whois_info c w)) = lookups w).
Proof.
  intros Hs. split.
  - intros Ha. destruct (cache_get c (cache w)) as [r|] eqn:Hc.
    + exfalso. destruct (Hs c r Hc) as [w0 H0].
      destruct (body_no_address ip_address lookup_whois c Ha) as [e He].
      rewrite He in H0. discriminate.
    + rewrite (lru_miss ip_address lookup_whois c w Hc).
      destruct (body_no_address_kind c Ha) as [He|[msg He]]; rewrite He; eauto.
  - intros v Ha Hor. destruct (cache_get c (cache w)) as [r|] eqn:Hc.
    + rewrite (lru_hit ip_address lookup_whois c w r Hc). cbn [fst snd set_cache lookups].
      eauto.
    + destruct Hor as [Hor|Hor]; [congruence|].
      pose proof (address_of_truthy c v Ha) as Hv.
      rewrite (lru_miss ip_address lookup_whois c w Hc),
        (body_address ip_address lookup_whois c v w Ha).
      destruct (ip_address v) as [a|] eqn:Hp; [|cbn; eauto].
      destruct (String.eqb (classify_spec a) "Public") eqn:Hpub; [|cbn; eauto].
      exfalso. apply Hor. now apply (public_category v a Hv Hp).
Qed.

End ResolverMore.

(** ** The table over sequences of calls *)

Section TableMore.

Variable ip_address : pyval -> option ip_obj.
Variable lookup_whois : nat -> pyval -> whois_outcome.

Local Abbreviation get_whois_info_body := (get_whois_info_body ip_address lookup_whois).
Local Abbreviation get_whois_info := (get_whois_info ip_address lookup_whois).
Local Abbreviation cache_sound := (cache_sound ip_address lookup_whois).
Local Abbreviation run := (run ip_address lookup_whois).

Implicit Types (l : list (call * (string * dict))) (c k : call) (w : world).

Lemma removelast_keys l :
  NoDup (fmap fst l) ->
  NoDup (fmap fst (removelast l)) /\
  (forall k, elem_of k (fmap fst (removelast l)) -> elem_of k (fmap fst l)).
Proof.
  destruct l as [|p l']; [intros _; split; [constructor|auto]|].
  assert (Hne : p :: l' <> []) by discriminate.
  pose proof (app_removelast_last p Hne) as E. revert E.
  generalize (removelast (p :: l')) as front. generalize (p :: l') as whole.
  intros whole front -> Hnd. rewrite fmap_app in Hnd |- *.
  apply NoDup_app in Hnd as (H1 & _ & _). split; [exact H1|].
  intros k Hk. apply elem_of_app. now left.
Qed.

Lemma cache_keys_step c w :
  NoDup (fmap fst (cache w)) -> NoDup (fmap fst (cache (snd (get_whois_info c w)))).
Proof.
  intros Hnd. destruct (cache_get c (cache w)) as [r|] eqn:Hc.
  - rewrite (lru_hit ip_address lookup_whois c w r Hc). cbn [snd set_cache cache].
    rewrite fmap_cons. apply NoDup_cons. cbn [fst].
    destruct (cache_remove_nodup c (cache w) Hnd). auto.
  - rewrite (lru_miss ip_address lookup_whois c w Hc).
    pose proof (body_cache ip_address lookup_whois c w) as Hbc.
    destruct (get_whois_info_body c w) as [[r|e] w1]; cbn [snd] in Hbc |- *;
      [|now rewrite Hbc].
    cbn [set_cache cache]. unfold cache_put. rewrite fmap_cons. cbn [fst].
    apply cache_get_not_elem in Hc. apply NoDup_cons.
    destruct (decide (maxsize <= length (cache w))); [|auto].
    destruct (removelast_keys (cache w) Hnd) as [H1 H2]. split; [|exact H1].
    intros H. apply Hc, H2, H.
Qed.

(** X10: the table never holds a key twice: if its keys are distinct
    before a sequence of calls, as in an empty table, they are distinct
    after it. *)
Theorem cache_keys_distinct cs w :
  NoDup (fmap fst (cache w)) -> NoDup (fmap fst (cache (run cs w))).
Proof.
  revert w. induction cs as [|c cs IH]; intros w H; [exact H|].
  cbn. apply IH. now apply cache_keys_step.
Qed.

Lemma run_cons c cs w : run (c :: cs) w = run cs (snd (get_whois_info c w)).
Proof. reflexivity. Qed.

Lemma run_app cs1 cs2 w : run (cs1 ++ cs2) w = run cs2 (run cs1 w).
Proof.
  revert w. induction cs1 as [|c cs1 IH]; intros w; [reflexivity|].
  cbn. apply IH.
Qed.

(** What the table holds for another key after a call, it held
    before. *)
Lemma other_key_before c k v w :
  k <> c ->
  cache_get k (cache (snd (get_whois_info c w))) = Some v ->
  cache_get k (cache w) = Some v.
Proof.
  intros Hne. destruct (cache_get c (cache w)) as [r|] eqn:Hc.
  - rewrite (lru_hit ip_address lookup_whois c w r Hc).
    cbn [snd set_cache cache cache_get].
    rewrite decide_False by congruence.
    now rewrite cache_get_remove_ne by exact Hne.
  - rewrite (lru_miss ip_address lookup_whois c w Hc).
    pose proof (body_cache ip_address lookup_whois c w) as Hbc.
    destruct (get_whois_info_body c w) as [[r|e] w1]; cbn [snd] in Hbc |- *.
    + cbn [set_cache cache]. intros [[-> _]|H]%cache_get_put; [congruence|exact H].
    + now rewrite Hbc.
Qed.

(** A call that raises stores nothing. *)
Lemma raise_keeps_cache c w e :
  fst (get_whois_info c w) = Raise e -> cache (snd (get_whois_info c w)) = cache w.
Proof.
  destruct (cache_get c (cache w)) as [r|] eqn:Hc.
  - rewrite (lru_hit ip_address lookup_whois c w r Hc). discriminate.
  - rewrite (lru_miss ip_address lookup_whois c w Hc).
    pose proof (body_cache ip_address lookup_whois c w) as Hbc.
    destruct (get_whois_info_body c w) as [[r|x] w1]; cbn [fst snd] in *;
      [discriminate|auto].
Qed.

Lemma returned_in_snoc cs w k v c :
  returned_in ip_address lookup_whois cs w k v ->
  returned_in ip_address lookup_whois (cs ++ [c]) w k v.
Proof.
  intros (before & after & -> & H). exists before, (after ++ [c]).
  split; [|exact H]. now rewrite <- app_assoc.
Qed.

(** X11: after any sequence of calls from an empty table, every entry
    of the table is the result that a call of the sequence with that
    key returned, in the world in which it was made: the table holds
    nothing else, and never an exception. *)
Theorem cache_entries_returned cs w k v :
  cache w = [] ->
  cache_get k (cache (run cs w)) = Some v ->
  returned_in ip_address lookup_whois cs w k v.
Proof.
  intros Hw. induction cs as [|c cs IH] using rev_ind.
  - cbn [run]. rewrite Hw. discriminate.
  - rewrite run_app. cbn [run]. intros H.
    destruct (decide (k = c)) as [->|Hne].
    + destruct (fst (get_whois_info c (run cs w))) as [r|e] eqn:Hr.
      * destruct (lru_stores ip_address lookup_whois c (run cs w) r Hr) as [rest Hrest].
        rewrite Hrest, cache_get_head in H. injection H as <-.
        exists cs, []. split; [reflexivity|exact Hr].
      * rewrite (raise_keeps_cache c (run cs w) e Hr) in H.
        now apply returned_in_snoc, IH.
    + apply returned_in_snoc, IH. now apply (other_key_before c k v (run cs w)).
Qed.

(** A call that raised makes no lookup, whenever it is made again. *)
Lemma raise_no_lookup c w e :
  fst (get_whois_info c w) = Raise e ->
  forall w', lookups (snd (get_whois_info c w')) = lookups w'.
Proof.
  intros Hr w'. destruct (cache_get c (cache w)) as [r|] eqn:Hc.
  - rewrite (lru_hit ip_address lookup_whois c w r Hc) in Hr. discriminate.
  - rewrite (lru_miss ip_address lookup_whois c w Hc) in Hr.
    assert (Hb : forall w0, get_whois_info_body c w0 = (Raise e, w0)).
    { apply (body_raises_unchanged ip_address lookup_whois c w).
      destruct (get_whois_info_body c w) as [[r|x] w1]; [discriminate|].
      exact Hr. }
    destruct (cache_get c (cache w')) as [r|] eqn:Hc'.
    + now rewrite (lru_hit ip_address lookup_whois c w' r Hc').
    + now rewrite (lru_miss ip_address lookup_whois c w' Hc'), Hb.
Qed.

Lemma distinct_others c (mid cs : list call) :
  elem_of c cs -> (forall x, elem_of x mid -> elem_of x cs) ->
  length (remove_dups cs) <= maxsize ->
  length (remove_dups (filter (fun c' => c' <> c) mid)) < maxsize.
Proof.
  intros Hc Hsub Hlen.
  enough (S (length (remove_dups (filter (fun c' => c' <> c) mid)))
          <= length (remove_dups cs)) by lia.
  change (S (length (remove_dups (filter (fun c' => c' <> c) mid))))
    with (length (c :: remove_dups (filter (fun c' => c' <> c) mid))).
  apply submseteq_length, NoDup_submseteq.
  - apply NoDup_cons. split; [|apply NoDup_remove_dups].
    intros H. apply elem_of_remove_dups, list_elem_of_filter in H. tauto.
  - intros x [->|Hx]%elem_of_cons; apply elem_of_remove_dups; [exact Hc|].
    apply elem_of_remove_dups, list_elem_of_filter in Hx. apply Hsub, Hx.
Qed.

(** X12: a batch of calls with at most [maxsize] = 1024 distinct keys,
    made a second time, makes no lookup: every call of the second pass
    is answered from the table, or raises as it did. *)
Theorem get_whois_info_batch_repeat cs w :
  length (remove_dups cs) <= maxsize ->
  lookups (run (cs ++ cs) w) = lookups (run cs w).
Proof.
  intros Hlen. rewrite run_app.
  enough (H : forall b a, cs = a ++ b ->
            lookups (run b (run a (run cs w))) = lookups (run a (run cs w))).
  { apply (H cs []). reflexivity. }
  induction b as [|c b IH]; intros a Hcs; [reflexivity|].
  rewrite run_cons.
  assert (Hstep : snd (get_whois_info c (run a (run cs w))) = run (a ++ [c]) (run cs w))
    by (rewrite run_app; reflexivity).
  rewrite Hstep, (IH (a ++ [c])) by (rewrite <- app_assoc; exact Hcs).
  rewrite <- Hstep. clear Hstep IH.
  assert (HS : run a (run cs w)
               = run (b ++ a) (snd (get_whois_info c (run a w)))).
  { rewrite Hcs at 1. now rewrite !run_app, run_cons. }
  rewrite HS.
  destruct (fst (get_whois_info c (run a w))) as [r|e] eqn:Hr.
  - assert (Hhit : cache_get c (cache (run (b ++ a) (snd (get_whois_info c (run a w)))))
                   = Some r).
    { apply ok_then_hit; [exact Hr|]. apply (distinct_others c (b ++ a) cs).
      - rewrite Hcs. apply elem_of_app. right. apply elem_of_cons. now left.
      - intros x [Hx|Hx]%elem_of_app; rewrite Hcs; apply elem_of_app.
        + right. apply elem_of_cons. now right.
        + now left.
      - exact Hlen. }
    now rewrite (lru_hit ip_address lookup_whois c _ r Hhit).
  - apply (raise_no_lookup c (run a w) e Hr).
Qed.

End TableMore.

Lemma get_whois_info_lookup_success_witness :
  let c := {| args := [VStr "8.8.8.8"]; kwds := [] |} in
  let res := get_whois_info IPv4.ip_address Clients.always_found c empty_world in
  fst res = Ok (asn_description Clients.google, record_dict Clients.google) /\
  lookups (snd res) = lookups empty_world ++ [VStr "8.8.8.8"] /\
  cache_get c (cache (snd res))
  = Some (asn_description Clients.google, record_dict Clients.google).
Proof.
  apply (get_whois_info_lookup_success IPv4.ip_address Clients.always_found
           {| args := [VStr "8.8.8.8"]; kwds := [] |} (VStr "8.8.8.8") Clients.google
           empty_world); reflexivity.
Defined.

Lemma get_whois_info_quiet_witness :
  let c := {| args := [VStr "not-an-ip"]; kwds := [("show_progress", VBool false)] |} in
  let res := get_whois_info IPv4.ip_address Clients.always_found c empty_world in
  (stdout (snd res) = stdout empty_world \/
   exists v, address_of c = Some v /\ IPv4.ip_address v = None /\
             stdout (snd res) = stdout empty_world ++ [diagnostic v]) /\
  markers (stdout (snd res)) = markers (stdout empty_world).
Proof.
  apply (get_whois_info_quiet IPv4.ip_address Clients.always_found
           {| args := [VStr "not-an-ip"]; kwds := [("show_progress", VBool false)] |}
           empty_world).
  reflexivity.
Defined.

Lemma get_whois_info_invalid_address_witness :
  let c := {| args := [VStr "not-an-ip"]; kwds := [] |} in
  let first := get_whois_info IPv4.ip_address Clients.always_found c empty_world in
  let second := get_whois_info IPv4.ip_address Clients.always_found c (snd first) in
  fst first = Ok ("No ASN Information for IP type: " +:+ "Unspecified", []) /\
  stdout (snd first) = stdout empty_world ++ [diagnostic (VStr "not-an-ip")] /\
  lookups (snd first) = lookups empty_world /\
  fst second = fst first /\
  stdout (snd second) = stdout (snd first).
Proof.
  apply (get_whois_info_invalid_address IPv4.ip_address Clients.always_found
           {| args := [VStr "not-an-ip"]; kwds := [] |} (VStr "not-an-ip")
           empty_world); reflexivity.
Defined.

Lemma get_whois_info_other_keys_witness :
  let k := {| args := [VStr "8.8.8.8"]; kwds := [] |} in
  let c := {| args := [VStr "10.0.0.5"]; kwds := [] |} in
  let w := snd (get_whois_info IPv4.ip_address Clients.always_found k empty_world) in
  cache_get k (cache w) = Some ("GOOGLE, US", record_dict Clients.google).
Proof.
  apply (get_whois_info_other_keys IPv4.ip_address Clients.always_found
           {| args := [VStr "10.0.0.5"]; kwds := [] |}
           {| args := [VStr "8.8.8.8"]; kwds := [] |}).
  - discriminate.
  - reflexivity.
Defined.

Lemma get_whois_info_same_address_witness :
  let c1 := {| args := [VStr "8.8.8.8"]; kwds := [] |} in
  let c2 := {| args := []; kwds := [("ip_str", VStr "8.8.8.8")] |} in
  fst (get_whois_info IPv4.ip_address Clients.always_found c1 empty_world)
  = fst (get_whois_info IPv4.ip_address Clients.always_found c2 empty_world) /\
  lookups (snd (get_whois_info IPv4.ip_address Clients.always_found c1 empty_world))
  = lookups (snd (get_whois_info IPv4.ip_address Clients.always_found c2 empty_world)) /\
  stdout (snd (get_whois_info IPv4.ip_address Clients.always_found c1 empty_world))
  = stdout (snd (get_whois_info IPv4.ip_address Clients.always_found c2 empty_world)).
Proof.
  apply (get_whois_info_same_address IPv4.ip_address Clients.always_found
           {| args := [VStr "8.8.8.8"]; kwds := [] |}
           {| args := []; kwds := [("ip_str", VStr "8.8.8.8")] |}
           (VStr "8.8.8.8") empty_world); reflexivity.
Defined.

Lemma get_whois_info_raises_witness :
  let c := {| args := [VStr "1.1.1.1"; VBool true; VBool true]; kwds := [] |} in
  let w := empty_world in
  (address_of c = None ->
     get_whois_info IPv4.ip_address Clients.always_found c w = (Raise missing_address, w) \/
     exists msg, get_whois_info IPv4.ip_address Clients.always_found c w
                 = (Raise (TypeError msg), w)) /\
  (forall v, address_of c = Some v ->
     cache_get c (cache w) <> None \/ ip_type_of IPv4.ip_address v <> Ok "Public" ->
     exists r, fst (get_whois_info IPv4.ip_address Clients.always_found c w) = Ok r /\
               lookups (snd (get_whois_info IPv4.ip_address Clients.always_found c w))
               = lookups w).
Proof.
  apply (get_whois_info_raises IPv4.ip_address Clients.always_found).
  now apply cache_sound_empty.
Defined.

Lemma cache_keys_distinct_witness :
  NoDup (fmap fst (cache (run IPv4.ip_address Clients.always_found
                            [ {| args := [VStr "8.8.8.8"]; kwds := [] |};
                              {| args := [VStr "10.0.0.5"]; kwds := [] |};
                              {| args := [VStr "8.8.8.8"]; kwds := [] |} ]
                            empty_world))).
Proof.
  apply (cache_keys_distinct IPv4.ip_address Clients.always_found). constructor.
Defined.

Lemma cache_entries_returned_witness :
  returned_in IPv4.ip_address Clients.always_found
    [ {| args := [VStr "8.8.8.8"]; kwds := [] |};
      {| args := [VStr "10.0.0.5"]; kwds := [] |} ]
    empty_world
    {| args := [VStr "8.8.8.8"]; kwds := [] |}
    ("GOOGLE, US", record_dict Clients.google).
Proof.
  apply (cache_entries_returned IPv4.ip_address Clients.always_found); reflexivity.
Defined.

Lemma get_whois_info_batch_repeat_witness :
  let cs := [ {| args := [VStr "8.8.8.8"]; kwds := [] |};
              {| args := [VStr "10.0.0.5"]; kwds := [] |};
              {| args := [VStr "1.1.1.1"]; kwds := [] |};
              {| args := [VStr "8.8.8.8"]; kwds := [] |} ] in
  lookups (run IPv4.ip_address Clients.always_found (cs ++ cs) empty_world)
  = lookups (run IPv4.ip_address Clients.always_found cs empty_world).
Proof.
  apply (get_whois_info_batch_repeat IPv4.ip_address Clients.always_found).
  vm_compute. lia.
Defined.

(** ** get_whois_df: the shape of what it returns, and its errors *)

Lemma lookup_map {A B} (f : A -> B) (l : list A) i :
  map f l !! i = option_map f (l !! i).
Proof.
  revert i. induction l as [|x l IH]; intros [|i]; cbn; auto.
Qed.

Lemma nth_alloc {A} (l : list A) x d : nth (length l) (l ++ [x]) d = x.
Proof.
  rewrite nth_lookup, lookup_app_r by lia. now rewrite Nat.sub_diag.
Qed.

Lemma col_index_app_ne col c cols :
  col_index col cols = None -> c <> col -> col_index col (cols ++ [c]) = None.
Proof.
  intros H Hne. induction cols as [|c' cols IH]; cbn in *.
  - apply String.eqb_neq in Hne. now rewrite Hne.
  - destruct (String.eqb c' col); [discriminate|].
    destruct (col_index col cols); [discriminate|]. now rewrite IH.
Qed.

(** A column that is new goes to the end of the columns and of each
    row. *)
Lemma set_column_new col vals df :
  col_index col (columns df) = None -> length vals = length (rows df) ->
  columns (set_column col vals df) = columns df ++ [col] /\
  length (rows (set_column col vals df)) = length (rows df) /\
  forall i x, rows df !! i = Some x ->
    exists v, vals !! i = Some v /\
              rows (set_column col vals df) !! i = Some (x ++ [v]).
Proof.
  intros Hc Hl. unfold set_column. rewrite Hc. cbn [columns rows].
  split; [reflexivity|]. split; [rewrite length_zip_with; lia|].
  intros i x Hx.
  destruct (lookup_lt_is_Some_2 vals i) as [v Hv].
  { rewrite Hl. apply lookup_lt_is_Some_1. eauto. }
  exists v. split; [exact Hv|]. rewrite lookup_zip_with, Hx. cbn. now rewrite Hv.
Qed.

(** A column that exists is overwritten in place. *)
Lemma set_column_existing col j vals df :
  col_index col (columns df) = Some j -> length vals = length (rows df) ->
  columns (set_column col vals df) = columns df /\
  length (rows (set_column col vals df)) = length (rows df) /\
  forall i x, rows df !! i = Some x ->
    exists v, vals !! i = Some v /\
              rows (set_column col vals df) !! i = Some (<[j := v]> x).
Proof.
  intros Hc Hl. unfold set_column. rewrite Hc. cbn [columns rows].
  split; [reflexivity|]. split; [rewrite length_zip_with; lia|].
  intros i x Hx.
  destruct (lookup_lt_is_Some_2 vals i) as [v Hv].
  { rewrite Hl. apply lookup_lt_is_Some_1. eauto. }
  exists v. split; [exact Hv|]. rewrite lookup_zip_with, Hx. cbn. now rewrite Hv.
Qed.

Section EnrichMore.

Variable ip_address : pyval -> option ip_obj.
Variable lookup_whois : nat -> pyval -> whois_outcome.

Local Abbreviation get_whois_info := (get_whois_info ip_address lookup_whois).
Local Abbreviation whois_of_row := (whois_of_row ip_address lookup_whois).
Local Abbreviation get_whois_df := (get_whois_df ip_address lookup_whois).
Local Abbreviation cache_sound := (cache_sound ip_address lookup_whois).
Local Abbreviation run := (run ip_address lookup_whois).

Implicit Types (w : world) (df : DataFrame).

(** The function applied to a row, when the table has the column. *)
Lemma whois_of_row_scalar cols ip_column sp j x w :
  col_index ip_column cols = Some j ->
  whois_of_row cols ip_column sp x w =
  match nth j x (CVal VNaN) with
  | CVal v => get_whois_info (row_call sp v) w
  | CList _ => (Raise (TypeError "unhashable type: 'list'"), w)
  | CDict _ => (Raise (TypeError "unhashable type: 'dict'"), w)
  end.
Proof.
  intros H. unfold whois_of_row, bind, lift, row_get. rewrite H.
  destruct (nth j x (CVal VNaN)); reflexivity.
Qed.

(** When [apply] returns, the result for row [i] is what
    [get_whois_info] returned for the address of that row, called
    after the calls for the rows before it. *)
Lemma apply_rows_results {A} (g : string * dict -> A) cols ip_column sp j xs :
  col_index ip_column cols = Some j ->
  forall w rs,
    fst (apply_rows (fun x => let* r := whois_of_row cols ip_column sp x in ret (g r))
           xs w) = Ok rs ->
    forall i x, xs !! i = Some x ->
      exists v r,
        nth j x (CVal VNaN) = CVal v /\
        fst (get_whois_info (row_call sp v) (run (row_calls j sp (take i xs)) w)) = Ok r /\
        rs !! i = Some (g r).
Proof.
  intros Hj. induction xs as [|x0 xs IH]; intros w rs Hr i x Hx; [discriminate|].
  cbn [apply_rows] in Hr. unfold bind at 1 in Hr. unfold bind at 1 in Hr.
  rewrite (whois_of_row_scalar cols ip_column sp j x0 w Hj) in Hr.
  destruct (nth j x0 (CVal VNaN)) as [v0|l0|d0] eqn:Hn; [|discriminate..].
  destruct (get_whois_info (row_call sp v0) w) as [[r0|e] w1] eqn:Hg; [|discriminate].
  unfold ret at 1 in Hr. unfold bind at 1 in Hr.
  destruct (apply_rows _ xs w1) as [[rest|e] w2] eqn:Hrest; [|discriminate].
  cbn [ret fst] in Hr. injection Hr as <-.
  destruct i as [|i].
  - cbn in Hx. injection Hx as <-. exists v0, r0. cbn [take row_calls run].
    split; [exact Hn|]. split; [now rewrite Hg|reflexivity].
  - cbn in Hx.
    destruct (IH w1 rest ltac:(now rewrite Hrest) i x Hx) as (v & r & H1 & H2 & H3).
    exists v, r. split; [exact H1|]. split; [|exact H3].
    cbn [take row_calls]. rewrite Hn. cbn [run]. now rewrite Hg.
Qed.

Lemma apply_rows_ext {A} (f f' : list cell -> M A) xs :
  (forall x w, f x w = f' x w) -> forall w, apply_rows f xs w = apply_rows f' xs w.
Proof.
  intros H. induction xs as [|x xs IH]; intros w; [reflexivity|].
  cbn [apply_rows]. unfold bind at 1 3. rewrite H.
  destruct (f' x w) as [[a|e] w1]; [|reflexivity].
  unfold bind. now rewrite IH.
Qed.

Lemma apply_rows_whois cols ip_column sp j xs :
  col_index ip_column cols = Some j ->
  forall w rs,
    fst (apply_rows (whois_of_row cols ip_column sp) xs w) = Ok rs ->
    forall i x, xs !! i = Some x ->
      exists v r,
        nth j x (CVal VNaN) = CVal v /\
        fst (get_whois_info (row_call sp v) (run (row_calls j sp (take i xs)) w)) = Ok r /\
        rs !! i = Some r.
Proof.
  intros Hj w rs Hr.
  apply (apply_rows_results (fun r => r) cols ip_column sp j xs Hj w rs).
  rewrite <- Hr. f_equal. apply apply_rows_ext. intros x w0. unfold bind, ret.
  destruct (whois_of_row cols ip_column sp x w0) as [[a|e] w1]; reflexivity.
Qed.

(** Summary-only mode, step by step: the copy, the rows, the column. *)
Lemma summary_mode_unfold data ip_column asn_col sp w :
  get_whois_df data ip_column false asn_col None sp w =
  let df := nth data (frames w) empty_frame in
  match apply_rows
          (fun x => let* r := whois_of_row (columns df) ip_column sp x in ret (fst r))
          (rows df) (set_frames (frames w ++ [df]) w) with
  | (Ok ss, w1) =>
      (Ok (length (frames w)),
       set_frames (<[length (frames w) :=
                      set_column asn_col (map (fun s => CVal (VStr s)) ss)
                        (nth (length (frames w)) (frames w1) empty_frame)]>
                     (frames w1)) w1)
  | (Raise e, w1) => (Raise e, w1)
  end.
Proof.
  unfold get_whois_df. unfold bind at 1, load. unfold bind at 1, alloc.
  unfold bind at 1. cbn [frames set_frames]. rewrite nth_alloc.
  unfold bind at 1.
  destruct (apply_rows _ _ _) as [[ss|e] w1]; [|reflexivity].
  unfold bind, store, ret. reflexivity.
Qed.

(** Summary-and-record mode, step by step. *)
Lemma record_mode_unfold data ip_column asn_col whois_col sp w :
  get_whois_df data ip_column false asn_col (Some whois_col) sp w =
  let df := nth data (frames w) empty_frame in
  match apply_rows (whois_of_row (columns df) ip_column sp)
          (rows df) (set_frames (frames w ++ [df]) w) with
  | (Ok rs, w1) =>
      (Ok (length (frames w)),
       set_frames (<[length (frames w) :=
                      set_column whois_col (map (fun r => CDict (snd r)) rs)
                        (set_column asn_col (map (fun r => CVal (VStr (fst r))) rs)
                           (nth (length (frames w)) (frames w1) empty_frame))]>
                     (frames w1)) w1)
  | (Raise e, w1) => (Raise e, w1)
  end.
Proof.
  unfold get_whois_df. unfold bind at 1, load. unfold bind at 1, alloc.
  unfold bind at 1. cbn [frames set_frames]. rewrite nth_alloc.
  unfold bind at 1.
  destruct (apply_rows _ _ _) as [[rs|e] w1] eqn:Ha; [|reflexivity].
  pose proof (apply_rows_frames _ (rows (nth data (frames w) empty_frame))
                (whois_of_row_frames ip_address lookup_whois
                   (columns (nth data (frames w) empty_frame)) ip_column sp)
                (set_frames (frames w ++ [nth data (frames w) empty_frame]) w)) as Hf.
  rewrite Ha in Hf. cbn [snd frames set_frames] in Hf.
  unfold bind, store, load, ret. cbn [fst snd frames set_frames].
  rewrite list_insert_insert_eq.
  rewrite (nth_lookup (<[_ := _]> _)), list_lookup_insert_eq
    by (rewrite Hf, length_app; cbn; lia).
  reflexivity.
Qed.

(** X13: in summary-only mode, for a table with rows, the DataFrame
    returned has the rows of the input in their order, and row [i]
    holds in column [asn_col] the summary that [get_whois_info] returned
    for the address of that row, called after the calls for the rows
    before it: added as the last column when the input has no such
    column, written over the column's cell otherwise. *)
Theorem get_whois_df_summary_shape data ip_column asn_col sp j w r :
  let df := nth data (frames w) empty_frame in
  let res := get_whois_df data ip_column false asn_col None sp w in
  let out := nth r (frames (snd res)) empty_frame in
  let copied := set_frames (frames w ++ [df]) w in
  rows df <> [] ->
  col_index ip_column (columns df) = Some j ->
  fst res = Ok r ->
  length (rows out) = length (rows df) /\
  columns out = match col_index asn_col (columns df) with
                | Some _ => columns df
                | None => columns df ++ [asn_col]
                end /\
  forall i x, rows df !! i = Some x ->
    exists v s d,
      nth j x (CVal VNaN) = CVal v /\
      fst (get_whois_info (row_call sp v)
             (run (row_calls j sp (take i (rows df))) copied)) = Ok (s, d) /\
      rows out !! i = Some (match col_index asn_col (columns df) with
                            | Some k => <[k := CVal (VStr s)]> x
                            | None => x ++ [CVal (VStr s)]
                            end).
Proof.
  cbn zeta. intros _ Hj. rewrite summary_mode_unfold. cbn zeta.
  set (df := nth data (frames w) empty_frame) in *.
  set (f := fun x => let* r := whois_of_row (columns df) ip_column sp x in ret (fst r)).
  set (w0 := set_frames (frames w ++ [df]) w).
  pose proof (apply_rows_frames f (rows df)
                (then_frames _ fst (whois_of_row_frames ip_address lookup_whois _
                                      ip_column sp)) w0) as Hf.
  pose proof (apply_rows_length f (rows df) w0) as Hl.
  pose proof (apply_rows_results fst (columns df) ip_column sp j (rows df) Hj w0) as Ht.
  fold f in Ht.
  destruct (apply_rows f (rows df) w0) as [[ss|e] w1]; [|discriminate].
  cbn [fst snd] in *. unfold w0 in Hf. cbn [frames set_frames] in *. intros [= <-].
  specialize (Hl ss eq_refl). specialize (Ht ss eq_refl).
  rewrite Hf, nth_alloc, nth_lookup, list_lookup_insert_eq
    by (rewrite length_app; cbn; lia).
  cbn [default from_option id].
  assert (Hlen : length (map (fun s => CVal (VStr s)) ss) = length (rows df))
    by now rewrite length_map.
  destruct (col_index asn_col (columns df)) as [k|] eqn:Hc.
  - destruct (set_column_existing asn_col k _ df Hc Hlen) as (H1 & H2 & H3).
    split; [exact H2|]. split; [exact H1|]. intros i x Hx.
    destruct (Ht i x Hx) as (v & [s d] & Hv & Hg & Hs). exists v, s, d.
    split; [exact Hv|]. split; [exact Hg|].
    destruct (H3 i x Hx) as (c0 & Hc0 & Hrow).
    rewrite lookup_map, Hs in Hc0. cbn in Hc0. injection Hc0 as <-. exact Hrow.
  - destruct (set_column_new asn_col _ df Hc Hlen) as (H1 & H2 & H3).
    split; [exact H2|]. split; [exact H1|]. intros i x Hx.
    destruct (Ht i x Hx) as (v & [s d] & Hv & Hg & Hs). exists v, s, d.
    split; [exact Hv|]. split; [exact Hg|].
    destruct (H3 i x Hx) as (c0 & Hc0 & Hrow).
    rewrite lookup_map, Hs in Hc0. cbn in Hc0. injection Hc0 as <-. exact Hrow.
Qed.

(** X14: in summary-and-record mode, for a table with rows and two
    column names that the input does not have, the DataFrame returned
    has the rows of the input in their order, and row [i] is followed by
    the summary and by the record that [get_whois_info] returned for
    the address of that row, called after the calls for the rows before
    it. *)
Theorem get_whois_df_record_shape data ip_column asn_col whois_col sp j w r :
  let df := nth data (frames w) empty_frame in
  let res := get_whois_df data ip_column false asn_col (Some whois_col) sp w in
  let out := nth r (frames (snd res)) empty_frame in
  let copied := set_frames (frames w ++ [df]) w in
  rows df <> [] ->
  col_index ip_column (columns df) = Some j ->
  fst res = Ok r ->
  col_index asn_col (columns df) = None ->
  col_index whois_col (columns df) = None ->
  asn_col <> whois_col ->
  columns out = columns df ++ [asn_col; whois_col] /\
  length (rows out) = length (rows df) /\
  forall i x, rows df !! i = Some x ->
    exists v s d,
      nth j x (CVal VNaN) = CVal v /\
      fst (get_whois_info (row_call sp v)
             (run (row_calls j sp (take i (rows df))) copied)) = Ok (s, d) /\
      rows out !! i = Some (x ++ [CVal (VStr s); CDict d]).
Proof.
  cbn zeta. intros _ Hj. rewrite record_mode_unfold. cbn zeta.
  set (df := nth data (frames w) empty_frame) in *.
  set (w0 := set_frames (frames w ++ [df]) w).
  pose proof (apply_rows_frames _ (rows df)
                (whois_of_row_frames ip_address lookup_whois (columns df) ip_column sp)
                w0) as Hf.
  pose proof (apply_rows_length (whois_of_row (columns df) ip_column sp) (rows df) w0)
    as Hl.
  pose proof (apply_rows_whois (columns df) ip_column sp j (rows df) Hj w0) as Ht.
  destruct (apply_rows _ (rows df) w0) as [[rs|e] w1]; [|discriminate].
  cbn [fst snd] in *. unfold w0 in Hf. cbn [frames set_frames] in *.
  intros [= <-] Ha Hw Hne.
  specialize (Hl rs eq_refl). specialize (Ht rs eq_refl).
  rewrite Hf, nth_alloc, nth_lookup, list_lookup_insert_eq
    by (rewrite length_app; cbn; lia).
  cbn [default from_option id].
  set (summaries := map (fun r => CVal (VStr (fst r))) rs).
  set (records := map (fun r => CDict (snd r)) rs).
  assert (Hls : length summaries = length (rows df))
    by (unfold summaries; now rewrite length_map).
  destruct (set_column_new asn_col summaries df Ha Hls) as (C1 & L1 & R1).
  assert (Hw' : col_index whois_col (columns (set_column asn_col summaries df)) = None)
    by (rewrite C1; now apply col_index_app_ne).
  assert (Hlr : length records = length (rows (set_column asn_col summaries df)))
    by (unfold records; rewrite length_map; lia).
  destruct (set_column_new whois_col records _ Hw' Hlr) as (C2 & L2 & R2).
  split; [|split].
  - rewrite C2, C1, <- app_assoc. reflexivity.
  - lia.
  - intros i x Hx. destruct (R1 i x Hx) as (v1 & Hv1 & Hr1).
    destruct (R2 i _ Hr1) as (v2 & Hv2 & Hr2).
    destruct (Ht i x Hx) as (v & [s d] & Hv & Hg & Hs). exists v, s, d.
    split; [exact Hv|]. split; [exact Hg|].
    unfold summaries in Hv1. unfold records in Hv2.
    rewrite lookup_map, Hs in Hv1, Hv2. cbn in Hv1, Hv2.
    injection Hv1 as <-. injection Hv2 as <-.
    rewrite Hr2, <- app_assoc. reflexivity.
Qed.

End EnrichMore.


Section EnrichErrors.

Variable ip_address : pyval -> option ip_obj.
Variable lookup_whois : nat -> pyval -> whois_outcome.

Local Abbreviation get_whois_info := (get_whois_info ip_address lookup_whois).
Local Abbreviation whois_of_row := (whois_of_row ip_address lookup_whois).
Local Abbreviation get_whois_df := (get_whois_df ip_address lookup_whois).
Local Abbreviation cache_sound := (cache_sound ip_address lookup_whois).

Implicit Types (w : world) (df : DataFrame).

(** With [all_columns], step by step. *)
Lemma expand_mode_unfold data ip_column asn_col whois_col sp w :
  get_whois_df data ip_column true asn_col whois_col sp w =
  let df := nth data (frames w) empty_frame in
  match apply_rows
          (fun x => let* r := whois_of_row (columns df) ip_column sp x in ret (snd r))
          (rows df) w with
  | (Ok ds, w1) => (Ok (length (frames w1)), set_frames (frames w1 ++ [expand_dicts ds]) w1)
  | (Raise e, w1) => (Raise e, w1)
  end.
Proof.
  unfold get_whois_df. unfold bind at 1, load. unfold bind at 1.
  destruct (apply_rows _ _ _) as [[ds|e] w1]; reflexivity.
Qed.

Lemma elem_of_keys (ds : list dict) k :
  elem_of k (concat (map (map fst) ds)) <-> exists d, elem_of d ds /\ elem_of k (map fst d).
Proof.
  induction ds as [|d0 ds IH]; cbn [map concat].
  - split; [intros H; inversion H|intros (d & H & _); inversion H].
  - rewrite elem_of_app, IH. split.
    + intros [H|(d & H1 & H2)].
      * exists d0. split; [apply elem_of_cons; now left|exact H].
      * exists d. split; [apply elem_of_cons; now right|exact H2].
    + intros (d & [->|H1]%elem_of_cons & H2); [now left|right; eauto].
Qed.

(** X15: with [all_columns], for a table with rows, row [i] of the
    DataFrame returned is made of the record that [get_whois_info]
    returned for the address of row [i] of the input, called after the
    calls for the rows before it: under each column the value of that
    field of the record, or [nan] when the record lacks the field.  The
    columns are distinct, and they are the field names that occur in
    the records of the rows. *)
Theorem get_whois_df_expand_fields data ip_column asn_col whois_col sp j w r :
  let df := nth data (frames w) empty_frame in
  let res := get_whois_df data ip_column true asn_col whois_col sp w in
  let out := nth r (frames (snd res)) empty_frame in
  rows df <> [] ->
  col_index ip_column (columns df) = Some j ->
  fst res = Ok r ->
  exists ds : list dict,
    length ds = length (rows df) /\
    (forall i x, rows df !! i = Some x ->
       exists v s d,
         nth j x (CVal VNaN) = CVal v /\
         fst (get_whois_info (row_call sp v)
                (run ip_address lookup_whois (row_calls j sp (take i (rows df))) w))
         = Ok (s, d) /\
         ds !! i = Some d /\
         rows out !! i = Some (map (field_cell d) (columns out))) /\
    NoDup (columns out) /\
    (forall k, elem_of k (columns out) <->
               exists d, elem_of d ds /\ elem_of k (map fst d)).
Proof.
  cbn zeta. intros _ Hj. rewrite expand_mode_unfold. cbn zeta.
  set (df := nth data (frames w) empty_frame) in *.
  set (f := fun x => let* r := whois_of_row (columns df) ip_column sp x in ret (snd r)).
  pose proof (apply_rows_length f (rows df) w) as Hl.
  pose proof (apply_rows_results ip_address lookup_whois snd (columns df) ip_column sp j
                (rows df) Hj w) as Ht.
  fold f in Ht.
  destruct (apply_rows f (rows df) w) as [[ds|e] w1]; [|discriminate].
  cbn [fst snd frames set_frames] in *. intros [= <-].
  specialize (Hl ds eq_refl). specialize (Ht ds eq_refl).
  rewrite nth_alloc. exists ds. split; [exact Hl|]. split; [|split].
  - intros i x Hx. destruct (Ht i x Hx) as (v & [s d] & Hv & Hg & Hd).
    exists v, s, d. split; [exact Hv|]. split; [exact Hg|]. split; [exact Hd|].
    unfold expand_dicts. cbn [rows columns]. rewrite lookup_map, Hd. reflexivity.
  - unfold expand_dicts, first_keys. cbn [columns].
    rewrite reverse_Permutation. apply NoDup_remove_dups.
  - intros k. unfold expand_dicts, first_keys. cbn [columns].
    rewrite elem_of_reverse, elem_of_remove_dups, elem_of_reverse.
    apply elem_of_keys.
Qed.




Lemma no_address_raises c w :
  cache_sound w -> address_of c = None ->
  exists e, get_whois_info c w = (Raise e, w).
Proof.
  intros Hs Ha. destruct (body_no_address ip_address lookup_whois c Ha) as [e He].
  exists e. destruct (cache_get c (cache w)) as [r|] eqn:Hc.
  - destruct (Hs c r Hc) as [w0 H0]. rewrite He in H0. discriminate.
  - now rewrite (lru_miss ip_address lookup_whois c w Hc), He.
Qed.

Lemma whois_of_row_sound cols ip_column sp x w :
  cache_sound w -> cache_sound (snd (whois_of_row cols ip_column sp x w)).
Proof.
  intros Hs. unfold whois_of_row, bind, lift.
  destruct (row_get cols x ip_column) as [[v|l|d]|e]; try exact Hs.
  now apply cache_sound_step.
Qed.

Lemma whois_of_row_empty_address cols ip_column sp j x w :
  cache_sound w -> col_index ip_column cols = Some j -> empty_address j x ->
  exists e, whois_of_row cols ip_column sp x w = (Raise e, w).
Proof.
  intros Hs Hc (v & Hv & Ht). unfold whois_of_row, bind, lift, row_get.
  rewrite Hc, Hv. apply no_address_raises; [exact Hs|].
  unfold address_of, bind_args. cbn. unfold py_or. now rewrite Ht.
Qed.

Lemma apply_rows_raises {A} (f : list cell -> M A) (bad : list cell -> Prop) xs :
  (forall x w, cache_sound w -> cache_sound (snd (f x w))) ->
  (forall x w, cache_sound w -> bad x -> exists e, fst (f x w) = Raise e) ->
  forall w, cache_sound w -> Exists bad xs ->
  exists e, fst (apply_rows f xs w) = Raise e.
Proof.
  intros Hsound Hbad. induction xs as [|x xs IH]; intros w Hs Hex.
  - inversion Hex.
  - cbn [apply_rows]. unfold bind at 1.
    pose proof (Hsound x w Hs) as Hs1.
    destruct (f x w) as [[a|e] w1] eqn:Hf; [|eauto].
    apply Exists_cons in Hex as [Hx|Hex].
    + destruct (Hbad x w Hs Hx) as [e He]. rewrite Hf in He. discriminate.
    + unfold bind at 1. destruct (IH w1 Hs1 Hex) as [e He].
      destruct (apply_rows f xs w1) as [[r|e'] w2]; [discriminate|eauto].
Qed.

Lemma cache_sound_frames fs w : cache_sound w -> cache_sound (set_frames fs w).
Proof. intros Hs k v H. exact (Hs k v H). Qed.

(** X17: a missing address is not swallowed by the table operation:
    when some row has an absent or empty address, [get_whois_df]
    raises, in every mode, whatever the other rows hold. *)
Theorem get_whois_df_empty_address data ip_column all_columns asn_col whois_col sp j w :
  let df := nth data (frames w) empty_frame in
  cache_sound w ->
  col_index ip_column (columns df) = Some j ->
  Exists (empty_address j) (rows df) ->
  exists e,
    fst (get_whois_df data ip_column all_columns asn_col whois_col sp w) = Raise e.
Proof.
  cbn zeta. intros Hs Hc Hex.
  set (df := nth data (frames w) empty_frame) in *.
  assert (Hg : forall (A : Type) (g : string * dict -> A) w0,
             cache_sound w0 ->
             exists e,
               fst (apply_rows
                      (fun x => let* r := whois_of_row (columns df) ip_column sp x in
                                ret (g r)) (rows df) w0) = Raise e).
  { intros A g w0 Hs0.
    apply (apply_rows_raises _ (empty_address j)); [| |exact Hs0|exact Hex].
    - intros x w1 Hs1. unfold bind, ret.
      pose proof (whois_of_row_sound (columns df) ip_column sp x w1 Hs1) as H.
      destruct (whois_of_row _ _ _ x w1) as [[a|e] w2]; exact H.
    - intros x w1 Hs1 Hx.
      destruct (whois_of_row_empty_address (columns df) ip_column sp j x w1 Hs1 Hc Hx)
        as [e He].
      exists e. unfold bind. now rewrite He. }
  destruct all_columns; [|destruct whois_col as [whois_col|]].
  - rewrite expand_mode_unfold. cbn zeta. fold df.
    destruct (Hg dict snd w Hs) as [e He].
    destruct (apply_rows _ _ w) as [[ds|e'] w1]; [discriminate|eauto].
  - rewrite record_mode_unfold. cbn zeta. fold df.
    assert (H : exists e, fst (apply_rows (whois_of_row (columns df) ip_column sp)
                                 (rows df) (set_frames (frames w ++ [df]) w)) = Raise e).
    { apply (apply_rows_raises _ (empty_address j));
        [| |now apply cache_sound_frames|exact Hex].
      - intros x w1 Hs1. now apply whois_of_row_sound.
      - intros x w1 Hs1 Hx.
        destruct (whois_of_row_empty_address (columns df) ip_column sp j x w1 Hs1 Hc Hx)
          as [e He]. exists e. now rewrite He. }
    destruct H as [e He].
    destruct (apply_rows _ _ _) as [[rs|e'] w1]; [discriminate|eauto].
  - rewrite summary_mode_unfold. cbn zeta. fold df.
    destruct (Hg string fst (set_frames (frames w ++ [df]) w)
                (cache_sound_frames _ w Hs)) as [e He].
    destruct (apply_rows _ _ _) as [[ss|e'] w1]; [discriminate|eauto].
Qed.

End EnrichErrors.

(** ** IpWhoisAccessor.lookup *)

Section Accessor.

Variable ip_address : pyval -> option ip_obj.
Variable lookup_whois : nat -> pyval -> whois_outcome.

Local Abbreviation lookup := (IpWhoisAccessor_lookup ip_address lookup_whois).

(** X18: a call of [lookup] with a keyword named as one of its own
    parameters, [self] or [ip_column], is refused when its arguments are
    bound: a [TypeError], with no warning and no effect.  Every other
    call issues the deprecation warning once, also when it raises
    afterwards, and a call that returns has issued it.  [lookup] leaves
    the accessor's DataFrame and every other existing DataFrame as it
    was; what it returns is a new DataFrame; and a keyword besides the
    four that [get_whois_df] takes is a [TypeError] that leaves the
    state as it was. *)
Theorem accessor_lookup_safe _df ip_column kwargs (w : world) :
  let out := IpWhoisAccessor_lookup ip_address lookup_whois _df ip_column kwargs w in
  (fst out = [] \/ fst out = [deprecation]) /\
  (fst out = [] <->
   exists name, elem_of name (kw_other kwargs) /\ (name = "self" \/ name = "ip_column")) /\
  take (length (frames w)) (frames (snd (snd out))) = frames w /\
  (forall r, fst (snd out) = Ok r ->
     fst out = [deprecation] /\
     r = length (frames w) /\ r < length (frames (snd (snd out)))) /\
  (kw_other kwargs <> [] -> exists msg, snd out = (Raise (TypeError msg), w)).
Proof.
  cbn zeta. unfold IpWhoisAccessor_lookup.
  destruct (find own_parameter (kw_other kwargs)) as [name|] eqn:Hf.
  - apply find_some in Hf as [Hin Hown]. cbn [fst snd].
    split; [now left|]. split; [|split; [now apply take_ge|split]].
    + split; [intros _|reflexivity]. exists name.
      split; [now apply list_elem_of_In|].
      unfold own_parameter in Hown. apply orb_true_iff in Hown.
      destruct Hown as [H|H]; apply String.eqb_eq in H; auto.
    + discriminate.
    + intros _. eexists. reflexivity.
  - cbn [fst snd]. split; [now right|]. split; [|split; [|split]].
    + split; [discriminate|]. intros (name & Hin & Hor). exfalso.
      apply list_elem_of_In in Hin.
      pose proof (find_none _ _ Hf name Hin) as Hn. unfold own_parameter in Hn.
      apply orb_false_iff in Hn as [H1 H2].
      apply String.eqb_neq in H1, H2. tauto.
    + destruct (kw_other kwargs) as [|name names]; [|now apply take_ge].
      apply (get_whois_df_frames ip_address lookup_whois).
    + intros r Hr. split; [reflexivity|].
      destruct (kw_other kwargs) as [|name names]; [|discriminate].
      now apply (get_whois_df_frames ip_address lookup_whois) in Hr.
    + intros Hne. destruct (kw_other kwargs) as [|name names]; [congruence|].
      unfold keyword_error. destruct (existsb _ _); eexists; reflexivity.
Qed.

End Accessor.

(** [df.mp_whois.lookup("ip", ip_column="x")] is refused before the
    body runs: no warning.  [df.mp_whois.lookup("ip", data=df)] warns
    and then fails in the call of [get_whois_df]. *)
Example lookup_refused :
  IpWhoisAccessor_lookup IPv4.ip_address Clients.always_found 0 "ip"
    {| kw_all_columns := None; kw_asn_col := None; kw_whois_col := None;
       kw_show_progress := None; kw_other := ["ip_column"] |}
    (Tables.holding Tables.hosts)
  = ([], (Raise (TypeError "lookup() got multiple values for argument 'ip_column'"),
          Tables.holding Tables.hosts)) /\
  IpWhoisAccessor_lookup IPv4.ip_address Clients.always_found 0 "ip"
    {| kw_all_columns := None; kw_asn_col := None; kw_whois_col := None;
       kw_show_progress := None; kw_other := ["data"] |}
    (Tables.holding Tables.hosts)
  = ([deprecation],
     (Raise (TypeError "get_whois_df() got multiple values for keyword argument 'data'"),
      Tables.holding Tables.hosts)).
Proof. split; reflexivity. Qed.

(** ** convert_to_ip_entities: what the entities are *)

Lemma elem_of_map {A B} (f : A -> B) (l : list A) y :
  elem_of y (map f l) <-> exists x, y = f x /\ elem_of x l.
Proof.
  rewrite list_elem_of_In, in_map_iff. split; intros (x & H1 & H2); exists x.
  - split; [auto|]. now apply list_elem_of_In.
  - split; [auto|]. now apply list_elem_of_In.
Qed.

Section EntitiesMore.

Variable arg_to_list : string -> list string.
Variable geo_location : pyval -> option string.

Local Abbreviation loop := (entities_loop geo_location).
Local Abbreviation convert := (convert_to_ip_entities arg_to_list geo_location).
Local Abbreviation with_location := (with_location geo_location).

Implicit Types (w : world) (ents : list IpAddress) (ips : list pyval).

(** The geolocation loop: every entity is looked up, in order. *)
Lemma lookup_all_spec es w :
  fst (lookup_all geo_location es w) = Ok (map with_location es) /\
  geo_lookups (snd (lookup_all geo_location es w)) = geo_lookups w ++ addresses es /\
  cache (snd (lookup_all geo_location es w)) = cache w /\
  lookups (snd (lookup_all geo_location es w)) = lookups w /\
  stdout (snd (lookup_all geo_location es w)) = stdout w /\
  frames (snd (lookup_all geo_location es w)) = frames w.
Proof.
  revert w. induction es as [|e es IH]; intros w.
  - cbn. rewrite app_nil_r. repeat split.
  - cbn [lookup_all]. unfold bind at 1 2 3 4 5 6, lookup_ip.
    unfold bind at 1 2 3 4 5 6.
    destruct (IH (add_geo_lookup (Address e) w)) as (H1 & H2 & H3 & H4 & H5 & H6).
    destruct (lookup_all geo_location es _) as [[r|x] w1]; cbn [fst snd] in *;
      [|discriminate].
    injection H1 as ->. unfold ret. cbn [fst snd].
    rewrite H2, H3, H4, H5, H6. cbn. rewrite <- app_assoc. repeat split.
Qed.

Lemma loop_elements geo addrs : forall ents ips w ents',
  addresses ents = ips ->
  fst (loop geo addrs ents ips w) = Ok ents' ->
  forall v, elem_of v (addresses ents') <->
            elem_of v ips \/
            exists addr l, elem_of addr addrs /\ batch_set addr = Ok l /\ elem_of v l.
Proof.
  induction addrs as [|addr addrs IH]; intros ents ips w ents' Ha.
  - intros [= <-] v. rewrite Ha. split; [auto|].
    intros [H|(a & l & H & _)]; [exact H|inversion H].
  - cbn [entities_loop]. unfold bind at 1, lift.
    destruct (batch_set addr) as [ip_list|e] eqn:Hb; [|discriminate].
    unfold bind at 1. set (new := list_difference ip_list ips).
    assert (Ha' : addresses (ents ++ map (fun ip => {| Address := ip; Location := None |})
                                      new) = ips ++ new).
    { unfold addresses. rewrite map_app, map_map. cbn. rewrite map_id.
      unfold addresses in Ha. now rewrite Ha. }
    assert (Hmem : forall v, elem_of v (ips ++ new) <-> elem_of v ips \/ elem_of v ip_list).
    { intros v. unfold new. rewrite elem_of_app, list_elem_of_difference.
      destruct (decide (elem_of v ips)); tauto. }
    assert (Hgoal : forall ents1 w1,
               addresses ents1 = ips ++ new ->
               fst (loop geo addrs ents1 (ips ++ new) w1) = Ok ents' ->
               forall v, elem_of v (addresses ents') <->
                 elem_of v ips \/
                 exists a l, elem_of a (addr :: addrs) /\ batch_set a = Ok l /\ elem_of v l).
    { intros ents1 w1 H1 Hr v. rewrite (IH ents1 (ips ++ new) w1 ents' H1 Hr v), Hmem.
      split.
      - intros [[H|H]|(a & l & Ha1 & Ha2 & Ha3)]; [now left| |].
        + right. exists addr, ip_list. repeat split; [apply elem_of_cons; now left|auto..].
        + right. exists a, l. repeat split; [apply elem_of_cons; now right|auto..].
      - intros [H|(a & l & [->|Ha1]%elem_of_cons & Ha2 & Ha3)]; [now left; left| |].
        + left. right. congruence.
        + right. exists a, l. auto. }
    destruct geo.
    + destruct (lookup_all_spec
                  (ents ++ map (fun ip => {| Address := ip; Location := None |}) new) w)
        as (H1 & _).
      destruct (lookup_all geo_location _ w) as [[r|x] w1]; cbn [fst] in H1;
        [|discriminate].
      injection H1 as ->. apply Hgoal. rewrite <- Ha'. unfold addresses.
      rewrite map_map. reflexivity.
    + apply Hgoal. exact Ha'.
Qed.

(** The code of lines 90-95 against the words: the set that an item
    gives holds the addresses that the item stands for, and no other. *)
Lemma batch_set_gives addr v :
  item_gives addr v <-> exists l, batch_set addr = Ok l /\ elem_of v l.
Proof.
  assert (Hone : forall u : pyval,
             v = u <-> exists l, Ok [u] = Ok l /\ elem_of v l).
  { intros u. split.
    - intros ->. exists [u]. split; [reflexivity|]. apply elem_of_cons. now left.
    - intros (l & [= <-] & [->|H]%elem_of_cons); [reflexivity|inversion H]. }
  destruct addr as [[|b|s|]|l|d]; cbn [item_gives batch_set]; try apply Hone.
  - destruct (contains_char "," s); [|apply Hone]. split.
    + intros (piece & Hp & ->). eexists. split; [reflexivity|].
      unfold py_set. apply elem_of_remove_dups, elem_of_map. eauto.
    + intros (l & [= <-] & Hv). unfold py_set in Hv.
      apply elem_of_remove_dups, elem_of_map in Hv. destruct Hv as (piece & -> & Hp).
      eauto.
  - split.
    + intros (s & Hs & ->). eexists. split; [reflexivity|].
      unfold py_set. apply elem_of_remove_dups, elem_of_map. eauto.
    + intros (l' & [= <-] & Hv). unfold py_set in Hv.
      apply elem_of_remove_dups, elem_of_map in Hv. destruct Hv as (s & -> & Hs).
      eauto.
  - split; [tauto|]. intros (l & H & _). discriminate.
Qed.

(** The items that [convert_to_ip_entities] reads: those of
    [arg_to_list(ip_str)] when the string is given, the cells of the
    column otherwise. *)
Lemma convert_unfold ip_str data ip_col geo w :
  convert ip_str data ip_col geo w =
  match given ip_str with
  | Some s => loop geo (map (fun a => CVal (VStr a)) (arg_to_list s)) [] [] w
  | None =>
      match data, given ip_col with
      | Some d, Some col =>
          match column_values d col with
          | Ok addrs => loop geo addrs [] [] w
          | Raise e => (Raise e, w)
          end
      | _, _ => (Raise missing_source, w)
      end
  end.
Proof.
  unfold convert_to_ip_entities, bind.
  destruct (given ip_str) as [s|]; [reflexivity|].
  destruct data as [d|]; [|reflexivity].
  destruct (given ip_col) as [col|]; [|reflexivity].
  unfold lift. destruct (column_values d col); reflexivity.
Qed.

(** X20: the addresses of the entities returned are exactly the
    addresses that the items of the input stand for, none lost and none
    invented: the items are those of [arg_to_list(ip_str)] when the
    string is given and the cells of the column otherwise; a list
    stands for its elements, a string with commas for the pieces
    between the commas without the whitespace around them, any other
    value for itself. *)
Theorem convert_to_ip_entities_covers ip_str data ip_col geo w ents :
  fst (convert_to_ip_entities arg_to_list geo_location ip_str data ip_col geo w)
  = Ok ents ->
  exists addrs,
    match given ip_str with
    | Some s => addrs = map (fun a => CVal (VStr a)) (arg_to_list s)
    | None => exists d col, data = Some d /\ given ip_col = Some col /\
                            column_values d col = Ok addrs
    end /\
    forall v, elem_of v (addresses ents) <->
              exists addr, elem_of addr addrs /\ item_gives addr v.
Proof.
  rewrite convert_unfold.
  assert (Hnil : forall addrs w0,
             fst (loop geo addrs [] [] w0) = Ok ents ->
             forall v, elem_of v (addresses ents) <->
               exists addr, elem_of addr addrs /\ item_gives addr v).
  { intros addrs w0 Hr v. rewrite (loop_elements geo addrs [] [] w0 ents eq_refl Hr v).
    split.
    - intros [H|(addr & l & H1 & H2 & H3)]; [inversion H|].
      exists addr. split; [exact H1|]. apply batch_set_gives. eauto.
    - intros (addr & H1 & (l & H2 & H3)%batch_set_gives). right. eauto. }
  destruct (given ip_str) as [s|].
  - intros Hr. eexists. split; [reflexivity|]. now apply (Hnil _ w).
  - destruct data as [d|]; [|discriminate].
    destruct (given ip_col) as [col|]; [|discriminate].
    destruct (column_values d col) as [addrs|e] eqn:Hv; [|discriminate].
    intros Hr. exists addrs. split; [eauto|]. now apply (Hnil _ w).
Qed.



(** One round of the loop with geolocation: the new entities are
    added, then every entity collected so far is looked up. *)
Lemma loop_geo_step addr addrs ents ips w ip_list :
  batch_set addr = Ok ip_list ->
  let ents0 := ents ++ map (fun ip => {| Address := ip; Location := None |})
                         (list_difference ip_list ips) in
  loop true (addr :: addrs) ents ips w =
  loop true addrs (map with_location ents0) (ips ++ list_difference ip_list ips)
    (snd (lookup_all geo_location ents0 w)).
Proof.
  intros Hb ents0. cbn [entities_loop]. unfold bind at 1, lift. rewrite Hb.
  unfold bind at 1. fold ents0.
  destruct (lookup_all_spec ents0 w) as (H1 & _).
  destruct (lookup_all geo_location ents0 w) as [[r|x] w1]; cbn [fst snd] in *;
    [|discriminate].
  injection H1 as ->. reflexivity.
Qed.

Lemma loop_geo_trace addrs : forall ents ips w ents',
  fst (loop true addrs ents ips w) = Ok ents' ->
  (exists more, addresses ents' = addresses ents ++ more) /\
  exists earlier,
    geo_lookups (snd (loop true addrs ents ips w)) = geo_lookups w ++ earlier /\
    (forall v, elem_of v earlier -> elem_of v (addresses ents')) /\
    (addrs <> [] -> exists before, earlier = before ++ addresses ents').
Proof.
  induction addrs as [|addr addrs IH]; intros ents ips w ents'.
  - cbn. intros [= <-]. split; [exists []; now rewrite app_nil_r|].
    exists []. rewrite app_nil_r. split; [reflexivity|].
    split; [intros v H; inversion H|congruence].
  - destruct (batch_set addr) as [ip_list|e] eqn:Hb.
    2:{ cbn [entities_loop]. unfold bind at 1, lift. rewrite Hb. discriminate. }
    rewrite (loop_geo_step addr addrs ents ips w ip_list Hb). cbn zeta.
    set (ents0 := ents ++ map (fun ip => {| Address := ip; Location := None |})
                            (list_difference ip_list ips)).
    destruct (lookup_all_spec ents0 w) as (_ & H2 & _).
    set (w1 := snd (lookup_all geo_location ents0 w)) in *.
    assert (Ha0 : addresses (map with_location ents0) = addresses ents0).
    { unfold addresses. rewrite map_map. reflexivity. }
    assert (Ha1 : exists new, addresses ents0 = addresses ents ++ new).
    { unfold ents0, addresses. rewrite map_app. eauto. }
    intros Hr.
    destruct (IH (map with_location ents0) (ips ++ list_difference ip_list ips) w1
                 ents' Hr) as ((more & Hmore) & earlier & G1 & G2 & G3).
    rewrite Ha0 in Hmore. split.
    + destruct Ha1 as [new Hnew]. exists (new ++ more).
      now rewrite Hmore, Hnew, <- app_assoc.
    + exists (addresses ents0 ++ earlier). rewrite G1, H2, <- app_assoc.
      split; [reflexivity|]. split.
      * intros v [Hv|Hv]%elem_of_app; [|now apply G2].
        rewrite Hmore. apply elem_of_app. now left.
      * intros _. destruct addrs as [|a addrs'].
        -- cbn in Hr, G1. injection Hr as <-.
           assert (earlier = []) as ->.
           { apply (app_inv_head (geo_lookups w1)). now rewrite app_nil_r. }
           exists []. now rewrite app_nil_r, Ha0.
        -- destruct (G3 ltac:(discriminate)) as [before ->].
           exists (addresses ents0 ++ before). now rewrite app_assoc.
Qed.

(** X22: with geolocation, when [convert_to_ip_entities] returns, the
    geolocation client was called for addresses of the entities
    returned and for nothing else, and its last calls are one for each
    entity returned, in the order of the list returned. *)
Theorem convert_to_ip_entities_geo ip_str data ip_col w ents :
  let res := convert_to_ip_entities arg_to_list geo_location ip_str data ip_col true w in
  fst res = Ok ents ->
  exists earlier,
    geo_lookups (snd res) = geo_lookups w ++ earlier ++ addresses ents /\
    forall v, elem_of v earlier -> elem_of v (addresses ents).
Proof.
  cbn zeta. rewrite convert_unfold.
  assert (Hloop : forall addrs,
             fst (loop true addrs [] [] w) = Ok ents ->
             exists earlier,
               geo_lookups (snd (loop true addrs [] [] w))
               = geo_lookups w ++ earlier ++ addresses ents /\
               forall v, elem_of v earlier -> elem_of v (addresses ents)).
  { intros addrs Hr.
    destruct (loop_geo_trace addrs [] [] w ents Hr) as (_ & earlier & G1 & G2 & G3).
    destruct addrs as [|a addrs'].
    - cbn in Hr |- *. injection Hr as <-. exists []. cbn. rewrite app_nil_r.
      split; [reflexivity|]. intros v H. inversion H.
    - destruct (G3 ltac:(discriminate)) as [before ->]. exists before.
      split; [exact G1|]. intros v Hv. apply G2, elem_of_app. now left. }
  destruct (given ip_str) as [s|]; [apply Hloop|].
  destruct data as [d|]; [|discriminate].
  destruct (given ip_col) as [col|]; [|discriminate].
  destruct (column_values d col) as [addrs|e]; [apply Hloop|discriminate].
Qed.

End EntitiesMore.

Lemma get_whois_df_summary_shape_witness :
  let w := Tables.holding Tables.hosts in
  let df := nth 0 (frames w) empty_frame in
  let res := get_whois_df IPv4.ip_address Clients.always_found
               0 "ip" false "AsnDescription" None false w in
  let out := nth 1 (frames (snd res)) empty_frame in
  let copied := set_frames (frames w ++ [df]) w in
  length (rows out) = length (rows df) /\
  columns out = match col_index "AsnDescription" (columns df) with
                | Some _ => columns df
                | None => columns df ++ ["AsnDescription"]
                end /\
  forall i x, rows df !! i = Some x ->
    exists v s d,
      nth 0 x (CVal VNaN) = CVal v /\
      fst (get_whois_info IPv4.ip_address Clients.always_found (row_call false v)
             (run IPv4.ip_address Clients.always_found
                (row_calls 0 false (take i (rows df))) copied)) = Ok (s, d) /\
      rows out !! i = Some (match col_index "AsnDescription" (columns df) with
                            | Some k => <[k := CVal (VStr s)]> x
                            | None => x ++ [CVal (VStr s)]
                            end).
Proof.
  apply (get_whois_df_summary_shape IPv4.ip_address Clients.always_found
           0 "ip" "AsnDescription" false 0 (Tables.holding Tables.hosts) 1).
  - discriminate.
  - reflexivity.
  - reflexivity.
Defined.

(** The table of two hosts in summary-only mode, in full. *)
Example get_whois_df_summary_hosts :
  let res := get_whois_df IPv4.ip_address Clients.always_found
               0 "ip" false "AsnDescription" None false (Tables.holding Tables.hosts) in
  nth 1 (frames (snd res)) empty_frame
  = {| columns := ["ip"; "AsnDescription"];
       rows := [ [CVal (VStr "10.0.0.5");
                  CVal (VStr "No ASN Information for IP type: Private")];
                 [CVal (VStr "8.8.8.8"); CVal (VStr "GOOGLE, US")] ] |}.
Proof. reflexivity. Qed.

Lemma get_whois_df_record_shape_witness :
  let w := Tables.holding Tables.hosts in
  let df := nth 0 (frames w) empty_frame in
  let res := get_whois_df IPv4.ip_address Clients.always_found
               0 "ip" false "AsnDescription" (Some "WhoIsData") false w in
  let out := nth 1 (frames (snd res)) empty_frame in
  let copied := set_frames (frames w ++ [df]) w in
  columns out = columns df ++ ["AsnDescription"; "WhoIsData"] /\
  length (rows out) = length (rows df) /\
  forall i x, rows df !! i = Some x ->
    exists v s d,
      nth 0 x (CVal VNaN) = CVal v /\
      fst (get_whois_info IPv4.ip_address Clients.always_found (row_call false v)
             (run IPv4.ip_address Clients.always_found
                (row_calls 0 false (take i (rows df))) copied)) = Ok (s, d) /\
      rows out !! i = Some (x ++ [CVal (VStr s); CDict d]).
Proof.
  apply (get_whois_df_record_shape IPv4.ip_address Clients.always_found
           0 "ip" "AsnDescription" "WhoIsData" false 0 (Tables.holding Tables.hosts) 1).
  - discriminate.
  - reflexivity.
  - reflexivity.
  - reflexivity.
  - reflexivity.
  - discriminate.
Defined.

Lemma get_whois_df_expand_fields_witness :
  let w := Tables.holding Tables.hosts in
  let df := nth 0 (frames w) empty_frame in
  let res := get_whois_df IPv4.ip_address Clients.always_found
               0 "ip" true "AsnDescription" None false w in
  let out := nth 1 (frames (snd res)) empty_frame in
  exists ds : list dict,
    length ds = length (rows df) /\
    (forall i x, rows df !! i = Some x ->
       exists v s d,
         nth 0 x (CVal VNaN) = CVal v /\
         fst (get_whois_info IPv4.ip_address Clients.always_found (row_call false v)
                (run IPv4.ip_address Clients.always_found
                   (row_calls 0 false (take i (rows df))) w))
         = Ok (s, d) /\
         ds !! i = Some d /\
         rows out !! i = Some (map (field_cell d) (columns out))) /\
    NoDup (columns out) /\
    (forall k, elem_of k (columns out) <->
               exists d, elem_of d ds /\ elem_of k (map fst d)).
Proof.
  apply (get_whois_df_expand_fields IPv4.ip_address Clients.always_found
           0 "ip" "AsnDescription" None false 0 (Tables.holding Tables.hosts) 1).
  - discriminate.
  - reflexivity.
  - reflexivity.
Defined.

(** The table of two hosts with [all_columns], in full: the private
    address has an empty record, and its row holds [nan] throughout. *)
Example get_whois_df_expand_hosts :
  let res := get_whois_df IPv4.ip_address Clients.always_found
               0 "ip" true "AsnDescription" None false (Tables.holding Tables.hosts) in
  nth 1 (frames (snd res)) empty_frame
  = {| columns := ["asn_description"; "asn"; "asn_country_code"];
       rows := [ [CVal VNaN; CVal VNaN; CVal VNaN];
                 [CVal (VStr "GOOGLE, US"); CVal (VStr "15169"); CVal (VStr "US")] ] |}.
Proof. reflexivity. Qed.


Lemma get_whois_df_empty_address_witness :
  exists e,
    fst (get_whois_df IPv4.ip_address Clients.always_found
           0 "ip" false "AsnDescription" None false (Tables.holding Tables.blank))
    = Raise e.
Proof.
  apply (get_whois_df_empty_address IPv4.ip_address Clients.always_found
           0 "ip" false "AsnDescription" None false 0 (Tables.holding Tables.blank)).
  - now apply cache_sound_empty.
  - reflexivity.
  - apply Exists_cons. right. apply Exists_cons. left.
    exists (VStr EmptyString). split; reflexivity.
Defined.

Lemma convert_to_ip_entities_covers_witness :
  exists addrs,
    match given None with
    | Some s => addrs = map (fun a => CVal (VStr a)) (Clients.one_item s)
    | None => exists d col, Some Tables.listed = Some d /\ given (Some "ip") = Some col /\
                            column_values d col = Ok addrs
    end /\
    forall v,
      elem_of v (addresses [ {| Address := VStr "8.8.8.8"; Location := None |};
                             {| Address := VStr "1.1.1.1"; Location := None |} ]) <->
      exists addr, elem_of addr addrs /\ item_gives addr v.
Proof.
  apply (convert_to_ip_entities_covers Clients.one_item Clients.no_location
           None (Some Tables.listed) (Some "ip") false empty_world).
  reflexivity.
Defined.

Lemma convert_to_ip_entities_geo_witness :
  let res := convert_to_ip_entities Clients.one_item Clients.no_location
               None (Some Tables.hosts) (Some "ip") true empty_world in
  let ents := [ {| Address := VStr "10.0.0.5"; Location := None |};
                {| Address := VStr "8.8.8.8"; Location := None |} ] in
  exists earlier,
    geo_lookups (snd res) = geo_lookups empty_world ++ earlier ++ addresses ents /\
    forall v, elem_of v earlier -> elem_of v (addresses ents).
Proof.
  apply (convert_to_ip_entities_geo Clients.one_item Clients.no_location
           None (Some Tables.hosts) (Some "ip") empty_world).
  reflexivity.
Defined.

(** X23: the entities returned have distinct addresses: each address
    gives one entity, however often it occurs in the input, within an
    item or across items. *)
Theorem convert_to_ip_entities_unique
    (arg_to_list : string -> list string) (geo_location : pyval -> option string)
    ip_str data ip_col geo (w : world) ents :
  fst (convert_to_ip_entities arg_to_list geo_location ip_str data ip_col geo w)
  = Ok ents ->
  NoDup (addresses ents).
Proof.
  apply (convert_to_ip_entities_distinct (fun _ => None) arg_to_list geo_location).
Qed.

Lemma convert_to_ip_entities_unique_witness :
  NoDup (addresses [ {| Address := VStr "8.8.8.8"; Location := None |};
                     {| Address := VStr "1.1.1.1"; Location := None |} ]).
Proof.
  apply (convert_to_ip_entities_unique Clients.one_item Clients.no_location
           None (Some Tables.listed) (Some "ip") false empty_world).
  reflexivity.
Defined.
